(** * http-market-app: the store's ledger and purchase handler, the registry's
      directory and health monitor

    A shallow embedding of [market-app/src/my-store.js] (the store) and of the
    two versions of [central-server.js] (the registry).

    Conventions of the embedding.
    - JSON values are the inductive [JsValue]; a JavaScript number is an exact
      rational ([Q]), which agrees with the runtime's doubles on the integers
      and on the dyadic fractions below 2^53 that the handlers compute with.
    - An [async] function is a computation in the monad [Eff]: it threads the
      process' world (globals, disk, clock) and ends in a value or in a thrown
      exception.  One handler runs at a time: an [await] is sequencing.
    - The disk holds typed file contents; the storage helpers [readJSON] and
      [writeJSON] may fail, as scheduled by the world's [faults].
    - Every storage, lock and network operation is appended to the world's
      [trace], so that "before any lock is attempted" and "a single save" are
      statements about the trace.  [console.log] output is not modelled. *)

From Stdlib Require Import ZArith QArith Qround String Ascii List Bool Lia Lqa.
Import ListNotations.

Set Implicit Arguments.
Set Warnings "-register-all".
Open Scope string_scope.

(* ------------------------------------------------------------------------- *)
(** * JavaScript values *)
(* ------------------------------------------------------------------------- *)

Module Js.

Inductive JsValue : Type :=
| JUndefined
| JNull
| JBool (b : bool)
| JNum (n : Q)
| JStr (s : string)
| JArr (items : list JsValue)
| JObj (fields : list (string * JsValue)).

(** [x < y] on numbers. *)
Definition Qltb (x y : Q) : bool := negb (Qle_bool y x).

(** Number equality ([===] on two numbers). *)
Definition Qeqb (x y : Q) : bool := Qeq_bool x y.

(** [!v] is [negb (truthy v)]: undefined, null, false, 0 and the empty string
    are falsy (NaN does not occur in JSON). *)
Definition truthy (v : JsValue) : bool :=
  match v with
  | JUndefined | JNull => false
  | JBool b => b
  | JNum n => negb (Qeqb n 0)
  | JStr s => negb (String.eqb s EmptyString)
  | JArr _ | JObj _ => true
  end.

(** [typeof v === 'number'] *)
Definition is_number (v : JsValue) : bool :=
  match v with JNum _ => true | _ => false end.

(** [Array.isArray(v)] *)
Definition isArray (v : JsValue) : bool :=
  match v with JArr _ => true | _ => false end.

(** Own-property lookup in an object literal: the first binding of the key. *)
Fixpoint lookup (k : string) (fields : list (string * JsValue)) : JsValue :=
  match fields with
  | [] => JUndefined
  | (k', v) :: rest => if String.eqb k k' then v else lookup k rest
  end.

(** [v.k] for the property names the handlers use (none of them is a property
    of a prototype or of an array): [None] is the TypeError that reading a
    property of undefined or null throws. *)
Definition prop (v : JsValue) (k : string) : option JsValue :=
  match v with
  | JUndefined | JNull => None
  | JObj fields => Some (lookup k fields)
  | _ => Some JUndefined
  end.

(** [o.k = v] on an object literal, and the last step of the spread
    [{...o, k: v}]: an existing key keeps its place, a new key goes last. *)
Fixpoint assign (k : string) (v : JsValue) (fields : list (string * JsValue))
  : list (string * JsValue) :=
  match fields with
  | [] => [(k, v)]
  | (k', v') :: rest =>
      if String.eqb k k' then (k', v) :: rest else (k', v') :: assign k v rest
  end.

(** [v === s] for a string [s]. *)
Definition is_string (v : JsValue) (s : string) : bool :=
  match v with JStr s' => String.eqb s' s | _ => false end.

(** [a || b] *)
Definition or_else (a b : JsValue) : JsValue := if truthy a then a else b.

(** [s.replace(pat, rep)] for a non-empty string pattern: the first occurrence
    only. *)
Definition replace (pat rep s : string) : string :=
  match String.index 0 pat s with
  | Some i =>
      String.append (String.substring 0 i s)
        (String.append rep
           (String.substring (i + String.length pat)
              (String.length s - (i + String.length pat)) s))
  | None => s
  end.

(** What the program takes from the JavaScript runtime: number and date
    formatting, the clock and the random source.  [clock n] is the n-th reading
    of [Date.now()] (milliseconds), [random n] the n-th draw of
    [Math.random()]. *)
Record Runtime : Type := {
  NumberToString : Q -> string;
  toISOString : Z -> string;
  clock : nat -> Z;
  random : nat -> Q
}.

(** String conversion inside a template literal, [`${v}`]. *)
Fixpoint ToString (rt : Runtime) (v : JsValue) : string :=
  match v with
  | JUndefined => "undefined"
  | JNull => "null"
  | JBool true => "true"
  | JBool false => "false"
  | JNum n => NumberToString rt n
  | JStr s => s
  | JArr items =>
      let element x :=
        match x with JUndefined | JNull => EmptyString | _ => ToString rt x end in
      (fix join (l : list JsValue) : string :=
         match l with
         | [] => EmptyString
         | [x] => element x
         | x :: rest => String.append (element x) (String.append "," (join rest))
         end) items
  | JObj _ => "[object Object]"
  end.

(** Exceptions: [new Error(message)] thrown by the program, the failure of a
    storage helper, the failure of a file-system or network call, and the
    TypeError of a property read on undefined or null. *)
Inductive Exn : Type :=
| Error (message : string)
| StorageError (file : string)
| SystemError (code : string)
| TypeError.

(** [error.message === s]: only the program's own errors carry one of the
    messages it compares with. *)
Definition message_is (e : Exn) (s : string) : bool :=
  match e with Error m => String.eqb m s | _ => false end.

Inductive Outcome (A : Type) : Type :=
| Ok (a : A)
| Throw (e : Exn).
Arguments Throw {A} e.

(** A computation over a world [W]: the world is kept when an exception is
    thrown. *)
Definition Eff (W A : Type) : Type := W -> Outcome A * W.

Definition ret {W A} (a : A) : Eff W A := fun w => (Ok a, w).

Definition throw {W A} (e : Exn) : Eff W A := fun w => (Throw e, w).

Definition bind {W A B} (c : Eff W A) (k : A -> Eff W B) : Eff W B :=
  fun w => match c w with
           | (Ok a, w') => k a w'
           | (Throw e, w') => (Throw e, w')
           end.

(** [try { c } catch (error) { handler }] *)
Definition try_catch {W A} (c : Eff W A) (handler : Exn -> Eff W A) : Eff W A :=
  fun w => match c w with
           | (Ok a, w') => (Ok a, w')
           | (Throw e, w') => handler e w'
           end.

(** [try { c } finally { cleanup }]: the cleanup runs on both exits; its own
    exception, if any, replaces the outcome of [c]. *)
Definition try_finally {W A} (c : Eff W A) (cleanup : Eff W unit) : Eff W A :=
  fun w => match c w with
           | (r, w') => match cleanup w' with
                        | (Ok _, w'') => (r, w'')
                        | (Throw e, w'') => (Throw e, w'')
                        end
           end.

(** A pure step that may throw, run inside a computation. *)
Definition lift {W A} (r : Outcome A) : Eff W A := fun w => (r, w).

(** An HTTP response: [res.status(status).json(body)]. *)
Record Response : Type := { status : Z; body : JsValue }.

End Js.

Export Js.

Declare Scope eff_scope.
Delimit Scope eff_scope with eff.
Notation "x <- c ;; k" := (bind c (fun x => k))
  (at level 61, c at next level, right associativity) : eff_scope.
Notation "c ;; k" := (bind c (fun _ => k))
  (at level 61, right associativity) : eff_scope.
Open Scope eff_scope.

(* ------------------------------------------------------------------------- *)
(** * The store: [market-app/src/my-store.js] *)
(* ------------------------------------------------------------------------- *)

Module Store.

(** [serverState] *)
Inductive ServerState : Type := INIT | CONFIGURED | REGISTERED | ACTIVE.

Definition state_eqb (a b : ServerState) : bool :=
  match a, b with
  | INIT, INIT | CONFIGURED, CONFIGURED | REGISTERED, REGISTERED
  | ACTIVE, ACTIVE => true
  | _, _ => false
  end.

(** [myProduct]: [{ name, priceYen }] *)
Record Product : Type := { name : string; priceYen : Q }.

(** An entry of [assets.inventory]: [{ product, qty }] *)
Record InventoryItem : Type := { product : string; qty : Q }.

(** The content of [assets.json] *)
Record Assets : Type := {
  capitalYen : Q;
  procurementPts : Q;
  inventory : list InventoryItem;
  collection : list JsValue
}.

(** The object [processPurchase] hands to [recordTransaction] *)
Record Trade : Type := {
  tradeId : string;
  buyer : string;
  seller : string;
  sold : JsValue;       (* product *)
  amount : Q;           (* qty *)
  price : Q
}.

(** An entry of [transactions.json]: [{ ...transaction, ts }] *)
Record Transaction : Type := { entry : Trade; ts : Z }.

Inductive File : Type := ASSETS_FILE | TRANSACTIONS_FILE.

Definition file_name (f : File) : string :=
  match f with
  | ASSETS_FILE => "../data/assets.json"
  | TRANSACTIONS_FILE => "../data/transactions.json"
  end.

(** The store's data directory; [assets_lock] says whether [assets.lock]
    exists. *)
Record Disk : Type := {
  assets_json : option Assets;
  transactions_json : option (list Transaction);
  assets_lock : bool
}.

Inductive Event : Type :=
| EvOpen (acquired : bool)          (* fs.openSync(ASSETS_LOCK_FILE, 'wx') *)
| EvUnlink (removed : bool)         (* fs.unlinkSync(ASSETS_LOCK_FILE) *)
| EvRead (f : File) (ok : bool)     (* readJSON *)
| EvWrite (f : File) (ok : bool).   (* writeJSON *)

(** The store process: its globals, its disk, the outcomes of the storage
    operations to come ([true]: the operation throws; none left: it succeeds),
    the numbers of clock readings and random draws so far, and the operations
    performed so far, oldest first. *)
Record World : Type := {
  serverState : ServerState;
  myProduct : option Product;
  myIpAddress : string;
  disk : Disk;
  faults : list bool;
  ticks : nat;
  draws : nat;
  trace : list Event
}.

Definition with_disk (d : Disk) (w : World) : World :=
  {| serverState := serverState w; myProduct := myProduct w;
     myIpAddress := myIpAddress w; disk := d; faults := faults w;
     ticks := ticks w; draws := draws w; trace := trace w |}.

Definition with_faults (fs : list bool) (w : World) : World :=
  {| serverState := serverState w; myProduct := myProduct w;
     myIpAddress := myIpAddress w; disk := disk w; faults := fs;
     ticks := ticks w; draws := draws w; trace := trace w |}.

Definition with_ticks (n : nat) (w : World) : World :=
  {| serverState := serverState w; myProduct := myProduct w;
     myIpAddress := myIpAddress w; disk := disk w; faults := faults w;
     ticks := n; draws := draws w; trace := trace w |}.

Definition with_draws (n : nat) (w : World) : World :=
  {| serverState := serverState w; myProduct := myProduct w;
     myIpAddress := myIpAddress w; disk := disk w; faults := faults w;
     ticks := ticks w; draws := n; trace := trace w |}.

Definition with_trace (t : list Event) (w : World) : World :=
  {| serverState := serverState w; myProduct := myProduct w;
     myIpAddress := myIpAddress w; disk := disk w; faults := faults w;
     ticks := ticks w; draws := draws w; trace := t |}.

Definition set_assets (a : Assets) (d : Disk) : Disk :=
  {| assets_json := Some a; transactions_json := transactions_json d;
     assets_lock := assets_lock d |}.

Definition set_transactions (l : list Transaction) (d : Disk) : Disk :=
  {| assets_json := assets_json d; transactions_json := Some l;
     assets_lock := assets_lock d |}.

Definition set_lock (b : bool) (d : Disk) : Disk :=
  {| assets_json := assets_json d; transactions_json := transactions_json d;
     assets_lock := b |}.

(** A JSON file of the data directory, with the type of its content. *)
Record FileRef (A : Type) : Type := {
  file : File;
  content : Disk -> option A;
  store : A -> Disk -> Disk
}.

Definition assets_file : FileRef Assets :=
  {| file := ASSETS_FILE; content := assets_json; store := set_assets |}.

Definition transactions_file : FileRef (list Transaction) :=
  {| file := TRANSACTIONS_FILE; content := transactions_json;
     store := set_transactions |}.

(** The messages of the errors the program throws and answers with. *)
Definition MSG_LOCKED : string :=
  "資産ファイルがロックされています。しばらく待ってから再試行してください。".
Definition MSG_PRODUCT_MISMATCH : string := "商品名が一致しません".
Definition MSG_OUT_OF_STOCK : string := "在庫が不足しています".
Definition MSG_NOT_ACTIVE : string := "サーバーがアクティブではありません".
Definition MSG_MISSING_PARAMETERS : string := "必須パラメータが不足しています".
Definition MSG_QTY_POSITIVE_INTEGER : string :=
  "数量は正の整数である必要があります".
Definition MSG_SERVER_ERROR : string := "サーバーエラーが発生しました".

Definition emit (e : Event) : Eff World unit :=
  fun w => (Ok tt, with_trace (trace w ++ [e])%list w).

(** The outcome scheduled for the next storage operation. *)
Definition next_fault : Eff World bool :=
  fun w => match faults w with
           | [] => (Ok false, w)
           | b :: fs => (Ok b, with_faults fs w)
           end.

(** Modelled from the spec: [readJSON] of the absent [db.js], a generic
    structured-file read helper: it returns the content of the file, and throws
    when the file does not exist or the storage read fails. *)
Definition readJSON {A} (f : FileRef A) : Eff World A :=
  failing <- next_fault ;;
  fun w =>
    match (if failing : bool then None else content f (disk w)) with
    | Some v => (emit (EvRead (file f) true) ;; ret v) w
    | None => (emit (EvRead (file f) false) ;;
               throw (StorageError (file_name (file f)))) w
    end.

(** Modelled from the spec: [writeJSON] of the absent [db.js], a generic
    structured-file write helper: it replaces the content of the file, and
    throws, leaving the file as it was, when the storage write fails. *)
Definition writeJSON {A} (f : FileRef A) (v : A) : Eff World unit :=
  failing <- next_fault ;;
  if failing : bool
  then emit (EvWrite (file f) false) ;; throw (StorageError (file_name (file f)))
  else (fun w => (Ok tt, with_disk (store f v (disk w)) w)) ;;
       emit (EvWrite (file f) true).

(** [fs.openSync(ASSETS_LOCK_FILE, 'wx')]: exclusive creation. *)
Definition openSync_wx : Eff World unit :=
  fun w =>
    if assets_lock (disk w)
    then (emit (EvOpen false) ;; throw (SystemError "EEXIST")) w
    else (emit (EvOpen true)) (with_disk (set_lock true (disk w)) w).

(** [fs.unlinkSync(ASSETS_LOCK_FILE)] *)
Definition unlinkSync : Eff World unit :=
  fun w =>
    if assets_lock (disk w)
    then (emit (EvUnlink true)) (with_disk (set_lock false (disk w)) w)
    else (emit (EvUnlink false) ;; throw (SystemError "ENOENT")) w.

Section WithRuntime.

Variable rt : Runtime.

(** [Date.now()] *)
Definition Date_now : Eff World Z :=
  fun w => (Ok (clock rt (ticks w)), with_ticks (S (ticks w)) w).

(** [Math.random()] *)
Definition Math_random : Eff World Q :=
  fun w => (Ok (random rt (draws w)), with_draws (S (draws w)) w).

Definition createInitialAssets : Assets :=
  {| capitalYen := 100000000; procurementPts := 100000000;
     inventory := []; collection := [] |}.

Definition createInitialTransactions : list Transaction := [].

Definition loadAssets : Eff World Assets :=
  try_catch (readJSON assets_file)
    (fun _ =>
       let initialAssets := createInitialAssets in
       writeJSON assets_file initialAssets ;;
       ret initialAssets).

Definition loadTransactions : Eff World (list Transaction) :=
  try_catch (readJSON transactions_file)
    (fun _ =>
       let initialTransactions := createInitialTransactions in
       writeJSON transactions_file initialTransactions ;;
       ret initialTransactions).

(** [updateAssets(updateFn)]: the mutator may throw. *)
Definition updateAssets (updateFn : Assets -> Outcome Assets)
  : Eff World Assets :=
  try_catch openSync_wx (fun _ => throw (Error MSG_LOCKED)) ;;
  try_finally
    (assets <- loadAssets ;;
     updatedAssets <- lift (updateFn assets) ;;
     writeJSON assets_file updatedAssets ;;
     ret updatedAssets)
    (try_catch unlinkSync (fun _ => ret tt)).

Definition recordTransaction (transaction : Trade) : Eff World unit :=
  try_catch
    (transactions <- loadTransactions ;;
     now <- Date_now ;;
     writeJSON transactions_file
       (transactions ++ [ {| entry := transaction; ts := (now / 1000)%Z |} ])%list)
    (fun error => throw error).

(** [inventoryItem.qty -= quantity] on the item that [find] returned: the first
    item of the product. *)
Fixpoint decrement (productName : JsValue) (quantity : Q)
  (items : list InventoryItem) : list InventoryItem :=
  match items with
  | [] => []
  | item :: rest =>
      if is_string productName (product item)
      then {| product := product item; qty := qty item - quantity |} :: rest
      else item :: decrement productName quantity rest
  end.

(** [assets.inventory.find((item) => item.product === productName)] *)
Definition find_item (productName : JsValue) (assets : Assets)
  : option InventoryItem :=
  find (fun item => is_string productName (product item)) (inventory assets).

(** The mutator that [processPurchase] passes to [updateAssets]. *)
Definition sale (p : Product) (productName : JsValue) (quantity : Q)
  (assets : Assets) : Outcome Assets :=
  match find_item productName assets with
  | None => Throw (Error MSG_OUT_OF_STOCK)
  | Some inventoryItem =>
      if Qltb (qty inventoryItem) quantity
      then Throw (Error MSG_OUT_OF_STOCK)
      else
        let totalPrice := priceYen p * quantity in
        Ok {| capitalYen := capitalYen assets + totalPrice;
              procurementPts := procurementPts assets;
              inventory := decrement productName quantity (inventory assets);
              collection := collection assets |}
  end.

(** Reading a field of the global [myProduct], which is null until the product
    is loaded or defined. *)
Definition the_product : Eff World Product :=
  fun w => match myProduct w with
           | Some p => (Ok p, w)
           | None => (Throw TypeError, w)
           end.

Definition processPurchase (productName : JsValue) (quantity : Q)
  (buyerIp : string) : Eff World JsValue :=
  p <- the_product ;;
  if negb (is_string productName (name p))
  then throw (Error MSG_PRODUCT_MISMATCH)
  else
    now <- Date_now ;;
    r <- Math_random ;;
    let tradeId :=
      String.append "trade-"
        (String.append (NumberToString rt (inject_Z now))
           (String.append "-"
              (NumberToString rt (inject_Z (Qfloor (r * 1000)))))) in
    updatedAssets <- updateAssets (sale p productName quantity) ;;
    (fun w =>
       recordTransaction
         {| tradeId := tradeId; buyer := buyerIp; seller := myIpAddress w;
            sold := productName; amount := quantity; price := priceYen p |} w) ;;
    ret (JObj [ ("success", JBool true);
                ("tradeId", JStr tradeId);
                ("product", productName);
                ("qty", JNum quantity);
                ("totalPrice", JNum (priceYen p * quantity)) ]).

(** An incoming request: [req.body] after [express.json()], and [req.ip]. *)
Record Request : Type := { req_body : JsValue; ip : string }.

Definition error_body (msg : string) : JsValue := JObj [ ("error", JStr msg) ].

(** [app.post('/buy', ...)] *)
Definition buy (req : Request) : Eff World Response :=
  try_catch
    (fun w =>
       if negb (state_eqb (serverState w) ACTIVE)
       then (Ok {| status := 503; body := error_body MSG_NOT_ACTIVE |}, w)
       else
         match prop (req_body req) "product", prop (req_body req) "qty" with
         | Some product, Some qty =>
             if negb (truthy product) || negb (truthy qty)
             then (Ok {| status := 400;
                         body := error_body MSG_MISSING_PARAMETERS |}, w)
             else
               match qty with
               | JNum quantity =>
                   if Qle_bool quantity 0
                   then (Ok {| status := 400;
                               body := error_body MSG_QTY_POSITIVE_INTEGER |}, w)
                   else
                     let buyerIp := replace "::ffff:" EmptyString (ip req) in
                     try_catch
                       (result <- processPurchase product quantity buyerIp ;;
                        ret {| status := 200; body := result |})
                       (fun error =>
                          match error with
                          | Error message =>
                              if String.eqb message MSG_PRODUCT_MISMATCH
                                 || String.eqb message MSG_OUT_OF_STOCK
                              then ret {| status := 409;
                                          body := error_body message |}
                              else throw error
                          | _ => throw error
                          end) w
               | _ => (Ok {| status := 400;
                             body := error_body MSG_QTY_POSITIVE_INTEGER |}, w)
               end
         | _, _ => (Throw TypeError, w)
         end)
    (fun _ => ret {| status := 500; body := error_body MSG_SERVER_ERROR |}).

End WithRuntime.

(** The records of the transaction log; none while the file does not exist. *)
Definition recorded (d : Disk) : list Transaction :=
  match transactions_json d with
  | Some transactions => transactions
  | None => []
  end.

End Store.

(* ------------------------------------------------------------------------- *)
(** * The registry: [central-server.js], current and legacy version *)
(* ------------------------------------------------------------------------- *)

Module Registry.

(** A record of [markets.json]: an object, as the field list of its literal. *)
Definition JsObject : Type := list (string * JsValue).

(** What a probe of a store's [/health] comes to. *)
Inductive ProbeOutcome : Type :=
| Responded (code : Z)
| TimedOut
| ConnectionFailed.

Inductive Event : Type :=
| EvRead (ok : bool)         (* readJSON(MARKETS_FILE) *)
| EvWrite (ok : bool)        (* writeJSON(MARKETS_FILE, markets) *)
| EvProbe (url : string).    (* axios.get(url, { timeout: 5000 }) *)

(** The registry process: the content of [markets.json] (an array of objects,
    when the file exists), the outcomes of the storage operations to come, the
    numbers of clock readings and probes so far, and the operations performed
    so far, oldest first. *)
Record World : Type := {
  markets_json : option (list JsObject);
  faults : list bool;
  ticks : nat;
  probes : nat;
  trace : list Event
}.

Definition with_markets (m : option (list JsObject)) (w : World) : World :=
  {| markets_json := m; faults := faults w; ticks := ticks w;
     probes := probes w; trace := trace w |}.

Definition with_faults (fs : list bool) (w : World) : World :=
  {| markets_json := markets_json w; faults := fs; ticks := ticks w;
     probes := probes w; trace := trace w |}.

Definition with_ticks (n : nat) (w : World) : World :=
  {| markets_json := markets_json w; faults := faults w; ticks := n;
     probes := probes w; trace := trace w |}.

Definition with_probes (n : nat) (w : World) : World :=
  {| markets_json := markets_json w; faults := faults w; ticks := ticks w;
     probes := n; trace := trace w |}.

Definition with_trace (t : list Event) (w : World) : World :=
  {| markets_json := markets_json w; faults := faults w; ticks := ticks w;
     probes := probes w; trace := t |}.

Definition MSG_MISSING_PARAMETERS : string := "必須パラメータが不足しています".
Definition MSG_NAME_AND_PRICE : string := "商品名と正の価格が必要です".
Definition MSG_PRICE_POSITIVE : string := "価格は正の数値である必要があります".
Definition MSG_REGISTERED : string := "マーケット登録が完了しました".
Definition MSG_SERVER_ERROR : string := "サーバーエラーが発生しました".

Definition MARKETS_FILE : string := "../data/markets.json".

Definition emit (e : Event) : Eff World unit :=
  fun w => (Ok tt, with_trace (trace w ++ [e])%list w).

Definition next_fault : Eff World bool :=
  fun w => match faults w with
           | [] => (Ok false, w)
           | b :: fs => (Ok b, with_faults fs w)
           end.

(** Modelled from the spec: [readJSON] of the absent [db.js], a generic
    structured-file read helper, at [MARKETS_FILE]: it returns the content of
    the file, and throws when the file does not exist or the read fails. *)
Definition readJSON : Eff World (list JsObject) :=
  failing <- next_fault ;;
  fun w =>
    match (if failing : bool then None else markets_json w) with
    | Some v => (emit (EvRead true) ;; ret v) w
    | None => (emit (EvRead false) ;; throw (StorageError MARKETS_FILE)) w
    end.

(** Modelled from the spec: [writeJSON] of the absent [db.js], a generic
    structured-file write helper, at [MARKETS_FILE]: it replaces the content of
    the file, and throws, leaving the file as it was, when the write fails. *)
Definition writeJSON (v : list JsObject) : Eff World unit :=
  failing <- next_fault ;;
  if failing : bool
  then emit (EvWrite false) ;; throw (StorageError MARKETS_FILE)
  else (fun w => (Ok tt, with_markets (Some v) w)) ;; emit (EvWrite true).

Definition error_body (msg : string) : JsValue := JObj [ ("error", JStr msg) ].

Definition respond (code : Z) (b : JsValue) : Response :=
  {| status := code; body := b |}.

(** [markets.findIndex(test)]: [None] is the result -1. *)
Fixpoint findIndex (test : JsObject -> bool) (markets : list JsObject)
  : option nat :=
  match markets with
  | [] => None
  | m :: rest =>
      if test m then Some O
      else match findIndex test rest with
           | Some i => Some (S i)
           | None => None
           end
  end.

(** [markets[i] = record] for an index inside the array. *)
Fixpoint store_at (i : nat) (record : JsObject) (markets : list JsObject)
  : list JsObject :=
  match markets, i with
  | [], _ => []
  | _ :: rest, O => record :: rest
  | m :: rest, S j => m :: store_at j record rest
  end.

Section WithRuntime.

Variable rt : Runtime.

(** The network: the outcome of the n-th probe the process issues, sent to the
    given URL. *)
Variable net : nat -> string -> ProbeOutcome.

(** [new Date().toISOString()] *)
Definition Date_toISOString : Eff World JsValue :=
  fun w => (Ok (JStr (toISOString rt (clock rt (ticks w)))),
            with_ticks (S (ticks w)) w).

Definition loadMarkets : Eff World (list JsObject) :=
  try_catch readJSON (fun _ => ret []).

Definition saveMarkets (markets : list JsObject) : Eff World unit :=
  try_catch (writeJSON markets) (fun error => throw error).

(** [axios.get(url, { timeout: 5000 })]: resolves with the response when its
    status is 2xx, and rejects on any other status, on a timeout and on a
    connection failure. *)
Definition axios_get (url : string) : Eff World Z :=
  fun w =>
    let w' := with_probes (S (probes w)) (with_trace (trace w ++ [EvProbe url])%list w) in
    match net (probes w) url with
    | Responded code =>
        if (200 <=? code)%Z && (code <? 300)%Z
        then (Ok code, w')
        else (Throw (SystemError "ERR_BAD_RESPONSE"), w')
    | TimedOut => (Throw (SystemError "ECONNABORTED"), w')
    | ConnectionFailed => (Throw (SystemError "ECONNREFUSED"), w')
    end.

Definition checkServerHealth (address : JsValue) : Eff World bool :=
  try_catch
    (response_status <-
       axios_get (String.append "http://"
                    (String.append (ToString rt address) "/health")) ;;
     ret (response_status =? 200)%Z)
    (fun _ => ret false).

(** [Promise.all(markets.map(async (market) => ...))], the probes taken in the
    order of the records. *)
Fixpoint check_all (markets : list JsObject) : Eff World (list JsObject) :=
  match markets with
  | [] => ret []
  | market :: rest =>
      isOnline <- checkServerHealth (lookup "address" market) ;;
      updated <- check_all rest ;;
      ret (assign "status" (JStr (if isOnline : bool then "ONLINE" else "OFFLINE"))
             market :: updated)
  end.

Definition performHealthChecks : Eff World unit :=
  try_catch
    (markets <- loadMarkets ;;
     updatedMarkets <- check_all markets ;;
     saveMarkets updatedMarkets)
    (fun _ => ret tt).

(** The validation loop of the current [/register]: [Ok false] is its early
    400; an item that is null makes [item.product] throw. *)
Fixpoint check_items (products : list JsValue) : Outcome bool :=
  match products with
  | [] => Ok true
  | item :: rest =>
      match prop item "product", prop item "priceYen" with
      | Some product, Some priceYen =>
          if negb (truthy product)
             || match priceYen with
                | JNum n => Qle_bool n 0
                | _ => true
                end
          then Ok false
          else check_items rest
      | _, _ => Throw TypeError
      end
  end.

(** [products.map((p) => ({ product: p.product, price: p.priceYen }))] *)
Fixpoint catalog (products : list JsValue) : Outcome (list JsValue) :=
  match products with
  | [] => Ok []
  | p :: rest =>
      match prop p "product", prop p "priceYen" with
      | Some product, Some priceYen =>
          match catalog rest with
          | Ok entries =>
              Ok (JObj [ ("product", product); ("price", priceYen) ] :: entries)
          | Throw e => Throw e
          end
      | _, _ => Throw TypeError
      end
  end.

(** [`${ip}:${port}`] *)
Definition address_of (ip port : JsValue) : string :=
  String.append (ToString rt ip) (String.append ":" (ToString rt port)).

(** [app.post('/register', ...)] of the current version. *)
Definition register (req_body : JsValue) : Eff World Response :=
  try_catch
    (match prop req_body "ip", prop req_body "port",
           prop req_body "products" with
     | Some ip, Some port, Some products =>
         match products with
         | JArr items =>
             if negb (truthy ip) || negb (truthy port)
                || (length items =? 0)%nat
             then ret (respond 400 (error_body MSG_MISSING_PARAMETERS))
             else
               valid <- lift (check_items items) ;;
               if negb valid
               then ret (respond 400 (error_body MSG_NAME_AND_PRICE))
               else
                 markets <- loadMarkets ;;
                 let address := address_of ip port in
                 match findIndex
                         (fun m => is_string (lookup "address" m) address)
                         markets with
                 | Some existingIndex =>
                     entries <- lift (catalog items) ;;
                     updatedAt <- Date_toISOString ;;
                     saveMarkets
                       (store_at existingIndex
                          [ ("products", JArr entries);
                            ("address", JStr address);
                            ("status", JStr "ONLINE");
                            ("updatedAt", updatedAt) ] markets) ;;
                     ret (respond 200 (JObj [ ("message", JStr MSG_REGISTERED) ]))
                 | None =>
                     entries <- lift (catalog items) ;;
                     createdAt <- Date_toISOString ;;
                     updatedAt <- Date_toISOString ;;
                     saveMarkets
                       (markets ++
                        [ [ ("products", JArr entries);
                            ("address", JStr address);
                            ("status", JStr "ONLINE");
                            ("createdAt", createdAt);
                            ("updatedAt", updatedAt) ] ])%list ;;
                     ret (respond 200 (JObj [ ("message", JStr MSG_REGISTERED) ]))
                 end
         | _ =>
             (* products is not an array: one of !products and
                !Array.isArray(products) holds *)
             ret (respond 400 (error_body MSG_MISSING_PARAMETERS))
         end
     | _, _, _ => throw TypeError
     end)
    (fun _ => ret (respond 500 (error_body MSG_SERVER_ERROR))).

(** The projection of one record in the current [GET /markets]; [JUndefined]
    for a record with neither a catalog nor a product. *)
Definition listed (market : JsObject) : JsValue :=
  if truthy (lookup "products" market) && isArray (lookup "products" market)
  then JObj [ ("products", lookup "products" market);
              ("address", lookup "address" market);
              ("status", or_else (lookup "status" market) (JStr "UNKNOWN")) ]
  else if truthy (lookup "product" market)
  then JObj [ ("products",
               JArr [ JObj [ ("product", lookup "product" market);
                             ("price", lookup "price" market) ] ]);
              ("address", lookup "address" market);
              ("status", or_else (lookup "status" market) (JStr "UNKNOWN")) ]
  else JUndefined.

(** [app.get('/markets', ...)] of the current version. *)
Definition list_markets : Eff World Response :=
  try_catch
    (markets <- loadMarkets ;;
     ret (respond 200 (JArr (filter truthy (map listed markets)))))
    (fun _ => ret (respond 500 (error_body MSG_SERVER_ERROR))).

(** [app.post('/register', ...)] of the legacy version. *)
Definition register_legacy (req_body : JsValue) : Eff World Response :=
  try_catch
    (match prop req_body "ip", prop req_body "product",
           prop req_body "priceYen", prop req_body "port" with
     | Some ip, Some product, Some priceYen, Some port =>
         if negb (truthy ip) || negb (truthy product)
            || negb (truthy priceYen) || negb (truthy port)
         then ret (respond 400 (error_body MSG_MISSING_PARAMETERS))
         else
           if match priceYen with
              | JNum n => Qle_bool n 0
              | _ => true
              end
           then ret (respond 400 (error_body MSG_PRICE_POSITIVE))
           else
             markets <- loadMarkets ;;
             let address := address_of ip port in
             match findIndex
                     (fun m => is_string (lookup "address" m) address)
                     markets with
             | Some existingIndex =>
                 updatedAt <- Date_toISOString ;;
                 saveMarkets
                   (store_at existingIndex
                      [ ("product", product);
                        ("price", priceYen);
                        ("address", JStr address);
                        ("status", JStr "ONLINE");
                        ("updatedAt", updatedAt) ] markets) ;;
                 ret (respond 200 (JObj [ ("message", JStr MSG_REGISTERED) ]))
             | None =>
                 createdAt <- Date_toISOString ;;
                 updatedAt <- Date_toISOString ;;
                 saveMarkets
                   (markets ++
                    [ [ ("product", product);
                        ("price", priceYen);
                        ("address", JStr address);
                        ("status", JStr "ONLINE");
                        ("createdAt", createdAt);
                        ("updatedAt", updatedAt) ] ])%list ;;
                 ret (respond 200 (JObj [ ("message", JStr MSG_REGISTERED) ]))
             end
     | _, _, _, _ => throw TypeError
     end)
    (fun _ => ret (respond 500 (error_body MSG_SERVER_ERROR))).

End WithRuntime.

(** The records of the directory; none while the file does not exist. *)
Definition directory (w : World) : list JsObject :=
  match markets_json w with
  | Some markets => markets
  | None => []
  end.

End Registry.

(* ------------------------------------------------------------------------- *)
(** * Sample processes, used to run the handlers on concrete requests *)
(* ------------------------------------------------------------------------- *)

Module Sample.

(** Decimal digits of a non-negative integer, at most [fuel] of them, for a
    runtime that prints integers. *)
Fixpoint digits (fuel : nat) (n : Z) (acc : string) : string :=
  match fuel with
  | O => acc
  | S fuel' =>
      let acc' := String (ascii_of_nat (Z.to_nat (48 + n mod 10))) acc in
      if (n / 10 =? 0)%Z then acc' else digits fuel' (n / 10)%Z acc'
  end.

(** A runtime that prints the integer part of a number, reads the clock one
    millisecond later each time, and draws 1/2 every time. *)
Definition rt : Runtime :=
  {| NumberToString := fun q => digits 20 (Qfloor q) EmptyString;
     toISOString := fun ms => digits 20 ms EmptyString;
     clock := fun n => (1700000000000 + Z.of_nat n)%Z;
     random := fun _ => 1 # 2 |}.

Definition juice : Store.Product := {| Store.name := "juice"; Store.priceYen := 100 |}.

Definition ledger : Store.Assets :=
  {| Store.capitalYen := 100000000;
     Store.procurementPts := 0;
     Store.inventory := [ {| Store.product := "juice"; Store.qty := 1000 |} ];
     Store.collection := [] |}.

(** An active store selling juice at 100 yen with 1000 in stock, the lock free,
    no storage fault scheduled. *)
Definition store : Store.World :=
  {| Store.serverState := Store.ACTIVE;
     Store.myProduct := Some juice;
     Store.myIpAddress := "127.0.0.1";
     Store.disk := {| Store.assets_json := Some ledger;
                      Store.transactions_json := Some [];
                      Store.assets_lock := false |};
     Store.faults := [];
     Store.ticks := 0;
     Store.draws := 0;
     Store.trace := [] |}.

(** The same store while another update holds the lock. *)
Definition locked_store : Store.World :=
  Store.with_disk (Store.set_lock true (Store.disk store)) store.


(** [POST /buy] with the body [{ product, qty }]. *)
Definition order (productName : string) (quantity : Q) : Store.Request :=
  {| Store.req_body := JObj [ ("product", JStr productName);
                              ("qty", JNum quantity) ];
     Store.ip := "::ffff:10.0.0.7" |}.

(** The registration body of the current version, one product. *)
Definition multi_body : JsValue :=
  JObj [ ("ip", JStr "10.0.0.1");
         ("port", JNum 9000);
         ("products",
          JArr [ JObj [ ("product", JStr "juice"); ("priceYen", JNum 100) ] ]) ].

(** The registration body of the legacy version: what [registerToMarket] of
    the store sends. *)
Definition legacy_body : JsValue :=
  JObj [ ("ip", JStr "10.0.0.1");
         ("product", JStr "juice");
         ("priceYen", JNum 100);
         ("port", JNum 9000) ].

(** A registry with no directory file yet. *)
Definition registry : Registry.World :=
  {| Registry.markets_json := None;
     Registry.faults := [];
     Registry.ticks := 0;
     Registry.probes := 0;
     Registry.trace := [] |}.

(** A registry that knows the store at 10.0.0.1:9000, last seen offline. *)
Definition known_registry : Registry.World :=
  {| Registry.markets_json :=
       Some [ [ ("products",
                 JArr [ JObj [ ("product", JStr "juice");
                               ("price", JNum 90) ] ]);
                ("address", JStr "10.0.0.1:9000");
                ("status", JStr "OFFLINE");
                ("createdAt", JStr "2025-04-01T09:00:00.000Z");
                ("updatedAt", JStr "2025-04-01T09:00:00.000Z") ] ];
     Registry.faults := [];
     Registry.ticks := 0;
     Registry.probes := 0;
     Registry.trace := [] |}.

(** A network where the first probe is answered 200, the second 404, the third
    times out and the others are refused. *)
Definition net (n : nat) (url : string) : Registry.ProbeOutcome :=
  match n with
  | O => Registry.Responded 200
  | 1%nat => Registry.Responded 404
  | 2%nat => Registry.TimedOut
  | _ => Registry.ConnectionFailed
  end.

End Sample.

(* ------------------------------------------------------------------------- *)
(** * The store's start: product definition and registration *)
(* ------------------------------------------------------------------------- *)

Module Startup.

Import Store.

(** The store process with the rest of what its start touches: the file
    [product.json] of its data directory and the registry process at
    [CENTRAL_SERVER].  Operations on [product.json] are taken from the store's
    schedule of storage faults and are not traced. *)
Record World : Type := {
  store : Store.World;
  product_json : option Product;
  central : Registry.World
}.

Definition PRODUCT_FILE : string := "../data/product.json".

(** A computation of the store process, run in the larger world. *)
Definition in_store {A : Type} (c : Eff Store.World A) : Eff World A :=
  fun w => match c (store w) with
           | (r, s') => (r, {| store := s'; product_json := product_json w;
                               central := central w |})
           end.

Definition set_product_json (p : Product) : Eff World unit :=
  fun w => (Ok tt, {| store := store w; product_json := Some p;
                      central := central w |}).

(** [serverState = s] *)
Definition set_serverState (s : ServerState) : Eff World unit :=
  in_store (fun w =>
    (Ok tt, {| serverState := s; myProduct := myProduct w;
               myIpAddress := myIpAddress w; disk := disk w;
               faults := faults w; ticks := ticks w; draws := draws w;
               trace := trace w |})).

(** [myProduct = p] *)
Definition set_myProduct (p : option Product) : Eff World unit :=
  in_store (fun w =>
    (Ok tt, {| serverState := serverState w; myProduct := p;
               myIpAddress := myIpAddress w; disk := disk w;
               faults := faults w; ticks := ticks w; draws := draws w;
               trace := trace w |})).

(** Modelled from the spec: [readJSON] of the absent [db.js], a generic
    structured-file read helper, at [PRODUCT_FILE]: it returns the content of
    the file, and throws when the file does not exist or the read fails. *)
Definition readJSON_product : Eff World Product :=
  failing <- in_store next_fault ;;
  fun w =>
    match (if failing : bool then None else product_json w) with
    | Some p => (Ok p, w)
    | None => (Throw (StorageError PRODUCT_FILE), w)
    end.

(** Modelled from the spec: [writeJSON] of the absent [db.js], a generic
    structured-file write helper, at [PRODUCT_FILE]: it replaces the content
    of the file, and throws, leaving the file as it was, when the write
    fails. *)
Definition writeJSON_product (p : Product) : Eff World unit :=
  failing <- in_store next_fault ;;
  if failing : bool
  then throw (StorageError PRODUCT_FILE)
  else set_product_json p.

(** [loadProduct()]: [None] is null. *)
Definition loadProduct : Eff World (option Product) :=
  try_catch (p <- readJSON_product ;; ret (Some p)) (fun _ => ret None).

Definition saveProduct (p : Product) : Eff World unit :=
  try_catch (writeJSON_product p) (fun error => throw error).

(** [defineProduct(productName, priceYen)]; it returns the product and the
    quantity.  [Math.floor(assets.procurementPts / priceYen)] is the floor of
    the exact quotient; a price of zero, for which JavaScript computes with
    Infinity, is outside the model. *)
Definition defineProduct (productName : string) (price : Q)
  : Eff World (Product * Q) :=
  let product := {| name := productName; priceYen := price |} in
  assets <- in_store loadAssets ;;
  let quantity := inject_Z (Qfloor (procurementPts assets / price)) in
  let consumedPts := quantity * price in
  in_store
    (updateAssets
       (fun assets =>
          Ok {| capitalYen := capitalYen assets;
                procurementPts := procurementPts assets - consumedPts;
                inventory := [ {| Store.product := productName;
                                  qty := quantity |} ];
                collection := collection assets |})) ;;
  saveProduct product ;;
  ret (product, quantity).

(** The registry as the store reaches it: the handler of its [/register], or
    nothing when it cannot be reached. *)
Definition Central : Type := option (JsValue -> Eff Registry.World Response).

(** [axios.post(`${CENTRAL_SERVER}/register`, body)]: resolves when the
    response has a 2xx status, rejects otherwise and when the registry cannot
    be reached. *)
Definition axios_post (server : Central) (request : JsValue)
  : Eff World Response :=
  fun w =>
    match server with
    | None => (Throw (SystemError "ECONNREFUSED"), w)
    | Some handler =>
        match handler request (central w) with
        | (Ok response, c') =>
            let w' := {| store := store w; product_json := product_json w;
                         central := c' |} in
            if (200 <=? status response)%Z && (status response <? 300)%Z
            then (Ok response, w')
            else (Throw (SystemError "ERR_BAD_RESPONSE"), w')
        | (Throw _, c') =>
            (Throw (SystemError "ERR_BAD_RESPONSE"),
             {| store := store w; product_json := product_json w;
                central := c' |})
        end
    end.

(** [registerToMarket()]; [PORT] is [process.env.PORT || 8082]. *)
Definition registerToMarket (PORT : JsValue) (server : Central)
  : Eff World unit :=
  try_catch
    (p <- in_store the_product ;;
     (fun w =>
        axios_post server
          (JObj [ ("ip", JStr (myIpAddress (store w)));
                  ("product", JStr (name p));
                  ("priceYen", JNum (priceYen p));
                  ("port", PORT) ]) w) ;;
     set_serverState REGISTERED)
    (fun error => throw error).

(** The callback of [app.listen] in [initializeServer]: the registration and,
    when it succeeded, the step to ACTIVE. *)
Definition on_listen (PORT : JsValue) (server : Central) : Eff World unit :=
  try_catch
    (registerToMarket PORT server ;;
     set_serverState ACTIVE)
    (fun _ => ret tt).

(** [initializeServer()]; an exception is the exit of the process with code
    1.  The data directory exists. *)
Definition initializeServer (PORT : JsValue) (server : Central)
  : Eff World unit :=
  in_store loadAssets ;;
  in_store loadTransactions ;;
  loaded <- loadProduct ;;
  set_myProduct loaded ;;
  match loaded with
  | Some _ => ret tt
  | None =>
      defined <- defineProduct "りんごジュース" 120 ;;
      set_myProduct (Some (fst defined))
  end ;;
  set_serverState CONFIGURED ;;
  on_listen PORT server.

End Startup.

Unset Implicit Arguments.
Open Scope list_scope.

(* ------------------------------------------------------------------------- *)
(** * Facts about numbers, objects and computations *)
(* ------------------------------------------------------------------------- *)

Module JsFacts.


Lemma Qle_bool_false (x y : Q) : y < x -> Qle_bool x y = false.
Proof.
  intros H. destruct (Qle_bool x y) eqn:E; [|reflexivity].
  apply Qle_bool_iff in E. exfalso. exact (Qlt_not_le _ _ H E).
Qed.

Lemma Qltb_true (x y : Q) : x < y -> Qltb x y = true.
Proof. intros H. unfold Qltb. rewrite (Qle_bool_false _ _ H). reflexivity. Qed.

Lemma positive_truthy (q : Q) : 0 < q -> truthy (JNum q) = true.
Proof.
  intros H. unfold truthy, Qeqb. apply negb_true_iff.
  destruct (Qeq_bool q 0) eqn:E; [|reflexivity].
  apply Qeq_bool_iff in E. rewrite E in H. exfalso. exact (Qlt_irrefl _ H).
Qed.

Lemma nonempty_truthy (s : string) : s <> EmptyString -> truthy (JStr s) = true.
Proof.
  intros H. simpl. apply negb_true_iff. apply String.eqb_neq, H.
Qed.

Lemma is_string_refl (s : string) : is_string (JStr s) s = true.
Proof. apply String.eqb_refl. Qed.

Lemma is_string_true (v : JsValue) (s : string) :
  is_string v s = true -> v = JStr s.
Proof.
  destruct v; simpl; try discriminate.
  intros H. apply String.eqb_eq in H. congruence.
Qed.

Section Running.

Context {W A B : Type}.

Lemma bind_ok (c : Eff W A) (k : A -> Eff W B) (w w1 : W) (a : A) :
  c w = (Ok a, w1) -> bind c k w = k a w1.
Proof. intros H. unfold bind. rewrite H. reflexivity. Qed.

Lemma bind_throw (c : Eff W A) (k : A -> Eff W B) (w w1 : W) (e : Exn) :
  c w = (Throw e, w1) -> bind c k w = (Throw e, w1).
Proof. intros H. unfold bind. rewrite H. reflexivity. Qed.

Lemma try_catch_ok (c : Eff W A) (h : Exn -> Eff W A) (w w1 : W) (a : A) :
  c w = (Ok a, w1) -> try_catch c h w = (Ok a, w1).
Proof. intros H. unfold try_catch. rewrite H. reflexivity. Qed.

Lemma try_catch_throw (c : Eff W A) (h : Exn -> Eff W A) (w w1 : W) (e : Exn) :
  c w = (Throw e, w1) -> try_catch c h w = h e w1.
Proof. intros H. unfold try_catch. rewrite H. reflexivity. Qed.

End Running.

End JsFacts.

(* ------------------------------------------------------------------------- *)
(** * The store's ledger, lock and purchase handler *)
(* ------------------------------------------------------------------------- *)

Module StoreFacts.

Import Store JsFacts.





Lemma sale_beyond_stock (p : Product) (productName : JsValue) (q : Q)
    (a : Assets) (item : InventoryItem) :
  find_item productName a = Some item -> qty item < q ->
  sale p productName q a = Throw (Error MSG_OUT_OF_STOCK).
Proof.
  intros Hi Hq. unfold sale. rewrite Hi, (Qltb_true _ _ Hq). reflexivity.
Qed.

Ltac open_world w :=
  destruct w as [st0 mp0 ip0 d0 fs0 tk0 dr0 tr0]; destruct d0 as [aj0 tj0 lk0];
  simpl in *; subst.

Ltac eff_unfold :=
  unfold updateAssets, recordTransaction, loadAssets,
    loadTransactions, readJSON, writeJSON, openSync_wx, unlinkSync,
    the_product, Date_now, Math_random, next_fault, emit, try_catch,
    try_finally, bind, ret, throw, lift.

Ltac eff_simpl :=
  cbn -[Qplus Qmult Qminus Qle_bool Qltb Qfloor inject_Z Z.div String.eqb
        find_item decrement sale truthy].

(** A contender finds the lock held: it gets the error at once and touches
    nothing, the lock included. *)
Lemma updateAssets_locked (updateFn : Assets -> Outcome Assets) (w : World) :
  assets_lock (disk w) = true ->
  updateAssets updateFn w
  = (Throw (Error MSG_LOCKED), with_trace (trace w ++ [EvOpen false]) w).
Proof. intros Hl. open_world w. reflexivity. Qed.


(** The ledger step when the read succeeds and the mutator throws: nothing is
    written. *)
Lemma updateAssets_mutator_throws (updateFn : Assets -> Outcome Assets)
    (w : World) (a : Assets) (e : Exn) :
  assets_lock (disk w) = false ->
  hd false (faults w) = false ->
  assets_json (disk w) = Some a -> updateFn a = Throw e ->
  updateAssets updateFn w
  = (Throw e,
     {| serverState := serverState w; myProduct := myProduct w;
        myIpAddress := myIpAddress w; disk := disk w;
        faults := tl (faults w); ticks := ticks w; draws := draws w;
        trace := trace w ++ [EvOpen true; EvRead ASSETS_FILE true;
                             EvUnlink true] |}).
Proof.
  intros Hl Hf1 Ha Hu. open_world w.
  destruct fs0 as [|f1 fs']; simpl in *; subst;
    eff_unfold; eff_simpl; rewrite Hu; eff_simpl;
    rewrite <- !app_assoc; reflexivity.
Qed.

(** ** Operations that leave the lock marker alone *)

(** [w'] comes after [w] by operations that neither create nor remove the lock
    marker. *)
Definition lock_kept (w w' : World) : Prop :=
  assets_lock (disk w') = assets_lock (disk w)
  /\ exists evs : list Event, trace w' = trace w ++ evs.

Definition keeps_lock {A : Type} (c : Eff World A) : Prop :=
  forall w : World, lock_kept w (snd (c w)).

Lemma lock_kept_refl (w : World) : lock_kept w w.
Proof. split; [reflexivity|]. exists []. symmetry. apply app_nil_r. Qed.

Lemma lock_kept_trans (w1 w2 w3 : World) :
  lock_kept w1 w2 -> lock_kept w2 w3 -> lock_kept w1 w3.
Proof.
  intros [L1 [e1 T1]] [L2 [e2 T2]]. split; [congruence|].
  exists (e1 ++ e2). rewrite T2, T1. symmetry. apply app_assoc.
Qed.

Lemma keeps_lock_ret {A : Type} (a : A) : keeps_lock (ret a).
Proof. intros w. apply lock_kept_refl. Qed.

Lemma keeps_lock_throw {A : Type} (e : Exn) : keeps_lock (@throw World A e).
Proof. intros w. apply lock_kept_refl. Qed.

Lemma keeps_lock_lift {A : Type} (r : Outcome A) : keeps_lock (lift r).
Proof. intros w. apply lock_kept_refl. Qed.

Lemma keeps_lock_bind {A B : Type} (c : Eff World A) (k : A -> Eff World B) :
  keeps_lock c -> (forall a, keeps_lock (k a)) -> keeps_lock (bind c k).
Proof.
  intros Hc Hk w. unfold bind. specialize (Hc w).
  destruct (c w) as [[a|e] w1]; simpl in Hc; [|exact Hc].
  exact (lock_kept_trans _ _ _ Hc (Hk a w1)).
Qed.

Lemma keeps_lock_try_catch {A : Type} (c : Eff World A)
    (h : Exn -> Eff World A) :
  keeps_lock c -> (forall e, keeps_lock (h e)) -> keeps_lock (try_catch c h).
Proof.
  intros Hc Hh w. unfold try_catch. specialize (Hc w).
  destruct (c w) as [[a|e] w1]; simpl in Hc; [exact Hc|].
  exact (lock_kept_trans _ _ _ Hc (Hh e w1)).
Qed.

Lemma keeps_lock_emit (e : Event) : keeps_lock (emit e).
Proof. intros w. split; [reflexivity|]. exists [e]. reflexivity. Qed.

Lemma keeps_lock_next_fault : keeps_lock next_fault.
Proof.
  intros w. unfold next_fault.
  destruct (faults w); simpl; apply lock_kept_refl || (split; [reflexivity|]).
  exists []. symmetry. apply app_nil_r.
Qed.

Lemma keeps_lock_readJSON {A : Type} (f : FileRef A) : keeps_lock (readJSON f).
Proof.
  unfold readJSON. apply keeps_lock_bind; [apply keeps_lock_next_fault|].
  intros failing w.
  destruct (if failing then None else content f (disk w)).
  - apply (keeps_lock_bind (emit _) (fun _ => ret _));
      [apply keeps_lock_emit | intros; apply keeps_lock_ret].
  - apply (keeps_lock_bind (emit _) (fun _ => throw _));
      [apply keeps_lock_emit | intros; apply keeps_lock_throw].
Qed.

Lemma keeps_lock_writeJSON {A : Type} (f : FileRef A) (v : A) :
  (forall d, assets_lock (store f v d) = assets_lock d) ->
  keeps_lock (writeJSON f v).
Proof.
  intros Hs. unfold writeJSON.
  apply keeps_lock_bind; [apply keeps_lock_next_fault|].
  intros [|].
  - apply keeps_lock_bind; [apply keeps_lock_emit|].
    intros; apply keeps_lock_throw.
  - apply keeps_lock_bind; [|intros; apply keeps_lock_emit].
    intros w. simpl. split; [apply Hs|]. exists []. symmetry. apply app_nil_r.
Qed.

Lemma keeps_lock_loadAssets : keeps_lock loadAssets.
Proof.
  unfold loadAssets. apply keeps_lock_try_catch; [apply keeps_lock_readJSON|].
  intros _. apply keeps_lock_bind; [|intros; apply keeps_lock_ret].
  apply keeps_lock_writeJSON. reflexivity.
Qed.

Lemma keeps_lock_loadTransactions : keeps_lock loadTransactions.
Proof.
  unfold loadTransactions.
  apply keeps_lock_try_catch; [apply keeps_lock_readJSON|].
  intros _. apply keeps_lock_bind; [|intros; apply keeps_lock_ret].
  apply keeps_lock_writeJSON. reflexivity.
Qed.

Lemma keeps_lock_Date_now (rt : Runtime) : keeps_lock (Date_now rt).
Proof. intros w. simpl. split; [reflexivity|]. exists []. symmetry. apply app_nil_r. Qed.

Lemma keeps_lock_recordTransaction (rt : Runtime) (t : Trade) :
  keeps_lock (recordTransaction rt t).
Proof.
  unfold recordTransaction.
  apply keeps_lock_try_catch; [|intros; apply keeps_lock_throw].
  apply keeps_lock_bind; [apply keeps_lock_loadTransactions|]. intros l.
  apply keeps_lock_bind; [apply keeps_lock_Date_now|]. intros now.
  apply keeps_lock_writeJSON. reflexivity.
Qed.

(** The body of [updateAssets], between the acquisition and the release. *)
Lemma keeps_lock_update_body (updateFn : Assets -> Outcome Assets) :
  keeps_lock (assets <- loadAssets ;;
              updatedAssets <- lift (updateFn assets) ;;
              writeJSON assets_file updatedAssets ;;
              ret updatedAssets).
Proof.
  apply keeps_lock_bind; [apply keeps_lock_loadAssets|]. intros a.
  apply keeps_lock_bind; [apply keeps_lock_lift|]. intros a'.
  apply keeps_lock_bind; [|intros; apply keeps_lock_ret].
  apply keeps_lock_writeJSON. reflexivity.
Qed.

Lemma openSync_free (w : World) :
  assets_lock (disk w) = false ->
  openSync_wx w
  = (Ok tt, with_trace (trace w ++ [EvOpen true])
              (with_disk (set_lock true (disk w)) w)).
Proof. intros Hl. unfold openSync_wx. rewrite Hl. reflexivity. Qed.

Lemma unlinkSync_held (w : World) :
  assets_lock (disk w) = true ->
  unlinkSync w
  = (Ok tt, with_trace (trace w ++ [EvUnlink true])
              (with_disk (set_lock false (disk w)) w)).
Proof. intros Hl. unfold unlinkSync. rewrite Hl. reflexivity. Qed.

(** C8. Every call of [updateAssets] that acquires the lock has released it
    when it returns, whatever the mutator and the storage do: the mutator may
    return or throw, and the load and the persist step may fail.  The call
    begins with the acquisition and its last operation is the removal of the
    lock marker. *)
Theorem updateAssets_releases_lock (updateFn : Assets -> Outcome Assets)
    (w : World) :
  assets_lock (disk w) = false ->
  assets_lock (disk (snd (updateAssets updateFn w))) = false
  /\ exists evs : list Event,
       trace (snd (updateAssets updateFn w))
       = trace w ++ EvOpen true :: evs ++ [EvUnlink true].
Proof.
  intros Hl. unfold updateAssets.
  rewrite (bind_ok _ _ _ _ _
             (try_catch_ok _ _ _ _ _ (openSync_free w Hl))).
  unfold try_finally.
  match goal with
  | |- context [ bind loadAssets ?k ?w1 ] =>
      pose proof (keeps_lock_update_body updateFn w1) as Hbody;
      destruct (bind loadAssets k w1) as [r w2]
  end.
  destruct Hbody as [L [evs T]]. simpl in L, T.
  rewrite (try_catch_ok _ _ _ _ _ (unlinkSync_held w2 L)). simpl.
  split; [reflexivity|]. exists evs. rewrite T, <- !app_assoc. reflexivity.
Qed.

(** ** The transaction log *)

(** Appending to the log on a disk without faults: the log gains exactly the
    entry, stamped with the clock in seconds; a missing log file is created. *)
Lemma recordTransaction_ok (rt : Runtime) (t : Trade) (w : World) :
  faults w = [] ->
  recordTransaction rt t w
  = (Ok tt,
     {| serverState := serverState w; myProduct := myProduct w;
        myIpAddress := myIpAddress w;
        disk := {| assets_json := assets_json (disk w);
                   transactions_json :=
                     Some (recorded (disk w)
                           ++ [ {| entry := t;
                                   ts := (clock rt (ticks w) / 1000)%Z |} ]);
                   assets_lock := assets_lock (disk w) |};
        faults := []; ticks := S (ticks w); draws := draws w;
        trace := trace w
                 ++ match transactions_json (disk w) with
                    | Some _ => [EvRead TRANSACTIONS_FILE true]
                    | None => [EvRead TRANSACTIONS_FILE false;
                               EvWrite TRANSACTIONS_FILE true]
                    end
                 ++ [EvWrite TRANSACTIONS_FILE true] |}).
Proof.
  intros Hf. open_world w. destruct tj0 as [l|];
    eff_unfold; eff_simpl; rewrite <- !app_assoc; reflexivity.
Qed.



(** ** The purchase *)

(** [processPurchase] for a product other than the defined one. *)
Lemma processPurchase_mismatch (rt : Runtime) (w : World) (p : Product)
    (productName : JsValue) (q : Q) (buyerIp : string) :
  myProduct w = Some p ->
  is_string productName (name p) = false ->
  processPurchase rt productName q buyerIp w
  = (Throw (Error MSG_PRODUCT_MISMATCH), w).
Proof.
  intros Hp Hn. unfold processPurchase, bind, the_product.
  rewrite Hp, Hn. reflexivity.
Qed.

(** The identifier that [processPurchase] draws in the world [w]. *)
Definition drawn_tradeId (rt : Runtime) (w : World) : string :=
  String.append "trade-"
    (String.append (NumberToString rt (inject_Z (clock rt (ticks w))))
       (String.append "-"
          (NumberToString rt
             (inject_Z (Qfloor (random rt (draws w) * 1000)))))).

(** [processPurchase] for the defined product: the identifier is drawn, then
    the ledger step runs, then the append to the log. *)
Lemma processPurchase_run (rt : Runtime) (w : World) (p : Product)
    (q : Q) (buyerIp : string) :
  myProduct w = Some p ->
  processPurchase rt (JStr (name p)) q buyerIp w
  = match updateAssets (sale p (JStr (name p)) q)
            (with_draws (S (draws w)) (with_ticks (S (ticks w)) w)) with
    | (Ok _, w1) =>
        match recordTransaction rt
                {| tradeId := drawn_tradeId rt w; buyer := buyerIp;
                   seller := myIpAddress w1; sold := JStr (name p);
                   amount := q; price := priceYen p |} w1 with
        | (Ok _, w2) =>
            (Ok (JObj [ ("success", JBool true);
                        ("tradeId", JStr (drawn_tradeId rt w));
                        ("product", JStr (name p));
                        ("qty", JNum q);
                        ("totalPrice", JNum (priceYen p * q)) ]), w2)
        | (Throw e, w2) => (Throw e, w2)
        end
    | (Throw e, w1) => (Throw e, w1)
    end.
Proof.
  intros Hp.
  unfold processPurchase, bind, the_product, Date_now, Math_random, ret,
    drawn_tradeId.
  cbv beta. rewrite Hp. cbv beta iota. rewrite is_string_refl.
  cbv beta iota delta [negb]. cbn [ticks draws with_ticks with_draws].
  destruct (updateAssets _ _) as [[a'|e] w1]; [|reflexivity].
  destruct (recordTransaction _ _ _) as [[u|e] w2]; reflexivity.
Qed.


(** C2. On a ledger whose inventory holds the defined product with quantity
    [qty item], a purchase of [q > qty item] fails with the out-of-stock error
    and the disk (ledger, log and lock marker) is exactly what it was: the
    ledger file is read and never written. *)
Theorem purchase_beyond_stock (rt : Runtime) (w : World) (p : Product)
    (a : Assets) (item : InventoryItem) (q : Q) (buyerIp : string) :
  myProduct w = Some p ->
  assets_lock (disk w) = false ->
  hd false (faults w) = false ->
  assets_json (disk w) = Some a ->
  find_item (JStr (name p)) a = Some item ->
  qty item < q ->
  exists w' : World,
    processPurchase rt (JStr (name p)) q buyerIp w
    = (Throw (Error MSG_OUT_OF_STOCK), w')
    /\ disk w' = disk w
    /\ trace w'
       = trace w ++ [EvOpen true; EvRead ASSETS_FILE true; EvUnlink true].
Proof.
  intros Hp Hl Hf Ha Hi Hq.
  rewrite (processPurchase_run rt w p q buyerIp Hp).
  rewrite (updateAssets_mutator_throws _
             (with_draws (S (draws w)) (with_ticks (S (ticks w)) w)) a _
             Hl Hf Ha
             (sale_beyond_stock p _ q a item Hi Hq)).
  eexists. split; [reflexivity|]. split; reflexivity.
Qed.

(** ** The purchase endpoint *)

(** A store that is not active answers 503 and does nothing. *)
Lemma buy_not_active (rt : Runtime) (req : Request) (w : World) :
  serverState w <> ACTIVE ->
  buy rt req w
  = (Ok {| status := 503; body := error_body MSG_NOT_ACTIVE |}, w).
Proof.
  intros Hs. unfold buy, try_catch.
  destruct (serverState w); try reflexivity. contradiction.
Qed.

(** An active store answers 400 and does nothing when the product or the
    quantity is falsy, or the quantity is not a number, or is not positive. *)
Lemma buy_malformed (rt : Runtime) (req : Request) (w : World)
    (product qty : JsValue) :
  serverState w = ACTIVE ->
  prop (req_body req) "product" = Some product ->
  prop (req_body req) "qty" = Some qty ->
  truthy product = false \/ truthy qty = false \/ is_number qty = false
  \/ (exists n : Q, qty = JNum n /\ n <= 0) ->
  exists msg : string,
    buy rt req w = (Ok {| status := 400; body := error_body msg |}, w).
Proof.
  intros Hs Hp Hq H. unfold buy, try_catch. rewrite Hs, Hp, Hq.
  cbn [state_eqb negb].
  destruct (truthy product) eqn:Tp; [|eexists; reflexivity].
  destruct (truthy qty) eqn:Tq; [|eexists; reflexivity].
  cbn [negb orb].
  destruct qty as [| |b|n|s0|l|o]; try (eexists; reflexivity).
  destruct H as [H|[H|[H|[n' [[= <-] H]]]]]; try discriminate.
  apply Qle_bool_iff in H. rewrite H. eexists; reflexivity.
Qed.

(** An active store hands a well-formed order to [processPurchase] and
    answers 200 with its result, 409 with the message of a product-mismatch or
    out-of-stock error, and 500 for every other exception. *)
Lemma buy_valid (rt : Runtime) (req : Request) (w : World)
    (product : JsValue) (q : Q) :
  serverState w = ACTIVE ->
  prop (req_body req) "product" = Some product ->
  truthy product = true ->
  prop (req_body req) "qty" = Some (JNum q) ->
  0 < q ->
  buy rt req w
  = match processPurchase rt product q
            (replace "::ffff:" EmptyString (ip req)) w with
    | (Ok result, w') => (Ok {| status := 200; body := result |}, w')
    | (Throw (Error message), w') =>
        if String.eqb message MSG_PRODUCT_MISMATCH
           || String.eqb message MSG_OUT_OF_STOCK
        then (Ok {| status := 409; body := error_body message |}, w')
        else (Ok {| status := 500; body := error_body MSG_SERVER_ERROR |}, w')
    | (Throw _, w') =>
        (Ok {| status := 500; body := error_body MSG_SERVER_ERROR |}, w')
    end.
Proof.
  intros Hs Hp Tp Hq Hpos. unfold buy. unfold try_catch at 1.
  rewrite Hs, Hp, Hq, Tp, (positive_truthy q Hpos), (Qle_bool_false _ _ Hpos).
  cbn [state_eqb negb orb]. unfold try_catch, bind, ret, throw.
  destruct (processPurchase _ _ _ _ _) as [[result|e] w']; [reflexivity|].
  destruct e as [message| | |]; try reflexivity.
  destruct (String.eqb message MSG_PRODUCT_MISMATCH
            || String.eqb message MSG_OUT_OF_STOCK); reflexivity.
Qed.

(** C3, as stated, fails: a well-formed order that finds the lock held is
    answered 500, not 409. *)
Example lock_contention_is_not_a_conflict :
  assets_lock (disk Sample.locked_store) = true
  /\ exists (r : Response) (w' : World),
       buy Sample.rt (Sample.order "juice" 5) Sample.locked_store = (Ok r, w')
       /\ status r = 500%Z
       /\ status r <> 409%Z.
Proof.
  split; [reflexivity|]. do 2 eexists. split; [vm_compute; reflexivity|].
  split; [reflexivity|discriminate].
Qed.

(** C3, amended.  A well-formed order of another product than the defined one
    is answered 409 with nothing done at all; an order that the mutator
    refuses as out of stock is answered 409 with the disk exactly as before;
    an order that finds the lock held is answered 500, the disk exactly as
    before and the lock still held; a request to a store that is not active
    (503) or a malformed request (400) is answered with the world, and so the
    trace, untouched: no lock acquisition is attempted. *)
Theorem buy_rejections (rt : Runtime) (req : Request) (w : World) :
  (serverState w <> ACTIVE ->
   buy rt req w
   = (Ok {| status := 503; body := error_body MSG_NOT_ACTIVE |}, w))
  /\ (forall product qty : JsValue,
        serverState w = ACTIVE ->
        prop (req_body req) "product" = Some product ->
        prop (req_body req) "qty" = Some qty ->
        truthy product = false \/ truthy qty = false
        \/ is_number qty = false \/ (exists n : Q, qty = JNum n /\ n <= 0) ->
        exists msg : string,
          buy rt req w
          = (Ok {| status := 400; body := error_body msg |}, w))
  /\ (forall (p : Product) (product : JsValue) (q : Q),
        serverState w = ACTIVE ->
        myProduct w = Some p ->
        prop (req_body req) "product" = Some product ->
        truthy product = true ->
        prop (req_body req) "qty" = Some (JNum q) ->
        0 < q ->
        (is_string product (name p) = false ->
         buy rt req w
         = (Ok {| status := 409;
                  body := error_body MSG_PRODUCT_MISMATCH |}, w))
        /\ (forall a : Assets,
              is_string product (name p) = true ->
              assets_lock (disk w) = false ->
              hd false (faults w) = false ->
              assets_json (disk w) = Some a ->
              sale p product q a = Throw (Error MSG_OUT_OF_STOCK) ->
              exists w' : World,
                buy rt req w
                = (Ok {| status := 409;
                         body := error_body MSG_OUT_OF_STOCK |}, w')
                /\ disk w' = disk w)
        /\ (is_string product (name p) = true ->
            assets_lock (disk w) = true ->
            exists w' : World,
              buy rt req w
              = (Ok {| status := 500;
                       body := error_body MSG_SERVER_ERROR |}, w')
              /\ disk w' = disk w
              /\ trace w' = trace w ++ [EvOpen false])).
Proof.
  split; [apply buy_not_active|].
  split; [intros product qty; apply buy_malformed|].
  intros p product q Hs Hp Hprod Tp Hqty Hpos.
  rewrite (buy_valid rt req w product q Hs Hprod Tp Hqty Hpos).
  split; [|split].
  - intros Hn. rewrite (processPurchase_mismatch rt w p _ _ _ Hp Hn).
    reflexivity.
  - intros a Hn Hl Hf Ha Hsale. apply is_string_true in Hn. subst product.
    rewrite (processPurchase_run rt w p q _ Hp).
    rewrite (updateAssets_mutator_throws _
               (with_draws (S (draws w)) (with_ticks (S (ticks w)) w)) a _
               Hl Hf Ha Hsale).
    eexists. split; reflexivity.
  - intros Hn Hl. apply is_string_true in Hn. subst product.
    rewrite (processPurchase_run rt w p q _ Hp).
    rewrite (updateAssets_locked _
               (with_draws (S (draws w)) (with_ticks (S (ticks w)) w)) Hl).
    eexists. split; [reflexivity|]. split; reflexivity.
Qed.

(** C4: the validation lets a quantity through that is positive and not an
    integer.  The order of 2.5 juice is answered 200 and the ledger then holds
    997.5. *)
Example buy_accepts_fractional_quantity :
  exists (result : JsValue) (a' : Assets) (w' : World),
    buy Sample.rt (Sample.order "juice" (5 # 2)) Sample.store
    = (Ok {| status := 200; body := result |}, w')
    /\ lookup "totalPrice" (match result with JObj f => f | _ => [] end)
       = JNum (500 # 2)
    /\ assets_json (disk w') = Some a'
    /\ find_item (JStr "juice") a'
       = Some {| product := "juice"; qty := 1995 # 2 |}.
Proof.
  do 3 eexists. split; [vm_compute; reflexivity|].
  split; [reflexivity|]. split; reflexivity.
Qed.


(** ** The theorems at work on the sample store *)


Lemma purchase_beyond_stock_witness :
  exists w' : World,
    processPurchase Sample.rt (JStr "juice") 2000 "10.0.0.7" Sample.store
    = (Throw (Error MSG_OUT_OF_STOCK), w')
    /\ disk w' = disk Sample.store.
Proof.
  destruct (purchase_beyond_stock Sample.rt Sample.store Sample.juice
              Sample.ledger {| product := "juice"; qty := 1000 |} 2000
              "10.0.0.7" eq_refl eq_refl eq_refl eq_refl eq_refl
              ltac:(unfold Qlt; simpl; lia))
    as (w' & H & D & _).
  exists w'. split; [exact H|exact D].
Defined.

Lemma updateAssets_releases_lock_witness :
  assets_lock (disk (snd (updateAssets (fun a => Ok a) Sample.store))) = false.
Proof.
  exact (proj1 (updateAssets_releases_lock (fun a => Ok a) Sample.store
                  eq_refl)).
Defined.

Lemma buy_rejections_witness :
  buy Sample.rt (Sample.order "milk" 5) Sample.store
  = (Ok {| status := 409; body := error_body MSG_PRODUCT_MISMATCH |},
     Sample.store)
  /\ exists w' : World,
       buy Sample.rt (Sample.order "juice" 5) Sample.locked_store
       = (Ok {| status := 500; body := error_body MSG_SERVER_ERROR |}, w')
       /\ disk w' = disk Sample.locked_store
       /\ trace w' = trace Sample.locked_store ++ [EvOpen false].
Proof.
  split.
  - exact (proj1 (proj2 (proj2 (buy_rejections Sample.rt
                                  (Sample.order "milk" 5) Sample.store))
                    Sample.juice (JStr "milk") 5 eq_refl eq_refl eq_refl
                    eq_refl eq_refl ltac:(unfold Qlt; simpl; lia))
             eq_refl).
  - exact (proj2 (proj2 (proj2 (proj2 (buy_rejections Sample.rt
                                  (Sample.order "juice" 5)
                                  Sample.locked_store))
                    Sample.juice (JStr "juice") 5 eq_refl eq_refl eq_refl
                    eq_refl eq_refl ltac:(unfold Qlt; simpl; lia)))
             eq_refl eq_refl).
Defined.


End StoreFacts.

(* ------------------------------------------------------------------------- *)
(** * The registry's directory and health monitor *)
(* ------------------------------------------------------------------------- *)

Module RegistryFacts.

Import Registry JsFacts.

(** ** Objects *)

Lemma lookup_assign_same (k : string) (v : JsValue) (o : JsObject) :
  lookup k (assign k v o) = v.
Proof.
  induction o as [|[k' v'] rest IH]; simpl.
  - rewrite String.eqb_refl. reflexivity.
  - destruct (String.eqb k k') eqn:E; simpl; rewrite E; [reflexivity|exact IH].
Qed.

Lemma lookup_assign_other (k k0 : string) (v : JsValue) (o : JsObject) :
  k0 <> k -> lookup k0 (assign k v o) = lookup k0 o.
Proof.
  intros Hne. induction o as [|[k' v'] rest IH]; simpl.
  - apply String.eqb_neq in Hne. rewrite Hne. reflexivity.
  - destruct (String.eqb k k') eqn:E; simpl.
    + apply String.eqb_eq in E. subst k'.
      apply String.eqb_neq in Hne. rewrite Hne. reflexivity.
    + destruct (String.eqb k0 k'); [reflexivity|exact IH].
Qed.

(** ** The directory as a list *)

(** [m.address === address] *)
Definition at_address (address : string) (m : JsObject) : bool :=
  is_string (lookup "address" m) address.

(** The number of records of an address. *)
Definition count_address (address : string) (markets : list JsObject) : nat :=
  length (filter (at_address address) markets).

Lemma findIndex_None (test : JsObject -> bool) (l : list JsObject) :
  findIndex test l = None <-> filter test l = [].
Proof.
  induction l as [|m rest IH]; simpl; [tauto|].
  destruct (test m); [split; discriminate|].
  destruct (findIndex test rest); [|tauto].
  split; [discriminate|]. intros H. apply IH in H. discriminate.
Qed.

Lemma findIndex_Some (test : JsObject -> bool) (l : list JsObject) (i : nat) :
  findIndex test l = Some i ->
  exists m, nth_error l i = Some m /\ test m = true
            /\ forall j m', (j < i)%nat -> nth_error l j = Some m' ->
                            test m' = false.
Proof.
  revert i. induction l as [|m rest IH]; simpl; [discriminate|]. intros i.
  destruct (test m) eqn:E.
  - intros [= <-]. exists m. repeat split; [exact E|]. intros j m' Hj. lia.
  - destruct (findIndex test rest) as [i'|]; [|discriminate].
    intros [= <-]. destruct (IH i' eq_refl) as (m0 & Hn & Ht & Hfirst).
    exists m0. repeat split; [exact Hn|exact Ht|].
    intros [|j] m' Hj; simpl.
    + intros [= <-]. exact E.
    + apply Hfirst. lia.
Qed.

Lemma store_at_length (i : nat) (r : JsObject) (l : list JsObject) :
  length (store_at i r l) = length l.
Proof.
  revert i. induction l as [|m rest IH]; intros [|i]; simpl; congruence.
Qed.

Lemma store_at_same (i : nat) (r : JsObject) (l : list JsObject) :
  (i < length l)%nat -> nth_error (store_at i r l) i = Some r.
Proof.
  revert i. induction l as [|m rest IH]; intros [|i]; simpl; try lia.
  - reflexivity.
  - intros H. apply IH. lia.
Qed.

Lemma store_at_other (i j : nat) (r : JsObject) (l : list JsObject) :
  j <> i -> nth_error (store_at i r l) j = nth_error l j.
Proof.
  revert i j. induction l as [|m rest IH]; intros [|i] [|j]; simpl;
    try reflexivity; try congruence.
  intros H. apply IH. congruence.
Qed.

(** Replacing a record of an address by a record of the same address keeps
    the count of every address. *)
Lemma store_at_count (test : JsObject -> bool) (i : nat) (r old : JsObject)
    (l : list JsObject) :
  nth_error l i = Some old -> test old = test r ->
  length (filter test (store_at i r l)) = length (filter test l).
Proof.
  revert i. induction l as [|m rest IH]; intros [|i]; simpl; try discriminate.
  - intros [= ->] H. rewrite H. destruct (test r); reflexivity.
  - intros Hn H. destruct (test m); simpl; rewrite (IH i Hn H); reflexivity.
Qed.

Lemma count_app (test : JsObject -> bool) (l1 l2 : list JsObject) :
  length (filter test (l1 ++ l2))
  = (length (filter test l1) + length (filter test l2))%nat.
Proof. rewrite filter_app, length_app. reflexivity. Qed.

(** Two addresses at which the same record is found are equal. *)
Lemma at_address_unique (a b : string) (m : JsObject) :
  at_address a m = true -> at_address b m = true -> a = b.
Proof.
  unfold at_address. intros Ha Hb.
  apply is_string_true in Ha. apply is_string_true in Hb. congruence.
Qed.

(** ** Validation of a catalog *)

(** [v.k], undefined where the read would throw. *)
Definition field (v : JsValue) (k : string) : JsValue :=
  match prop v k with
  | Some x => x
  | None => JUndefined
  end.

(** An item that passes the validation loop: not null, with a truthy product
    name and a positive number as price. *)
Definition item_ok (item : JsValue) : bool :=
  match prop item "product", prop item "priceYen" with
  | Some product, Some (JNum n) => truthy product && negb (Qle_bool n 0)
  | _, _ => false
  end.

(** An item whose properties can be read: neither null nor undefined. *)
Definition readable (item : JsValue) : bool :=
  match item with
  | JUndefined | JNull => false
  | _ => true
  end.

(** The catalog entry stored for an item. *)
Definition entry_of (item : JsValue) : JsValue :=
  JObj [ ("product", field item "product"); ("price", field item "priceYen") ].

(** The loop with its early exit is [forallb], as long as every item it
    reaches can be read. *)
Lemma check_items_forallb (items : list JsValue) :
  forallb readable items = true ->
  check_items items = Ok (forallb item_ok items).
Proof.
  induction items as [|item rest IH]; simpl; [reflexivity|].
  intros H. apply andb_true_iff in H. destruct H as [Hr Hrest].
  unfold item_ok.
  destruct item as [| |b|n|s|l|o]; try discriminate; simpl; try reflexivity.
  destruct (truthy (lookup "product" o));
    destruct (lookup "priceYen" o) as [| |b|n|s|l|o']; simpl;
    try reflexivity.
  destruct (Qle_bool n 0); simpl; [reflexivity|exact (IH Hrest)].
Qed.

Lemma item_ok_readable (items : list JsValue) :
  forallb item_ok items = true -> forallb readable items = true.
Proof.
  induction items as [|item rest IH]; simpl; [reflexivity|].
  intros H. apply andb_true_iff in H. destruct H as [Hi Hrest].
  rewrite (IH Hrest), andb_true_r. destruct item; try reflexivity; discriminate.
Qed.

Lemma check_items_accepts (items : list JsValue) :
  forallb item_ok items = true -> check_items items = Ok true.
Proof.
  intros H. rewrite (check_items_forallb _ (item_ok_readable _ H)), H.
  reflexivity.
Qed.

Lemma catalog_accepted (items : list JsValue) :
  forallb readable items = true ->
  catalog items = Ok (map entry_of items).
Proof.
  induction items as [|item rest IH]; simpl; [reflexivity|].
  intros H. apply andb_true_iff in H. destruct H as [Hr Hrest].
  rewrite (IH Hrest).
  destruct item; try discriminate; reflexivity.
Qed.

(** ** Running the registry's operations *)

Ltac open_registry w :=
  destruct w as [mj0 fs0 tk0 pb0 tr0]; simpl in *; subst.

Ltac reg_unfold :=
  unfold loadMarkets, saveMarkets, readJSON, writeJSON, Date_toISOString,
    next_fault, emit, try_catch, bind, ret, throw, lift.

(** Whether [markets.json] exists. *)
Definition present (w : World) : bool :=
  match markets_json w with
  | Some _ => true
  | None => false
  end.

Lemma bind_lift {A B : Type} (a : A) (k : A -> Eff World B) (w : World) :
  bind (lift (Ok a)) k w = k a w.
Proof. reflexivity. Qed.

Lemma loadMarkets_run (w : World) :
  faults w = [] ->
  loadMarkets w
  = (Ok (directory w), with_trace (trace w ++ [EvRead (present w)]) w).
Proof.
  intros Hf. open_registry w. destruct mj0; reflexivity.
Qed.

Lemma saveMarkets_ok (markets : list JsObject) (w : World) :
  faults w = [] ->
  saveMarkets markets w
  = (Ok tt,
     {| markets_json := Some markets; faults := []; ticks := ticks w;
        probes := probes w; trace := trace w ++ [EvWrite true] |}).
Proof. intros Hf. open_registry w. reflexivity. Qed.


(** The n-th reading of the clock, as [new Date().toISOString()] gives it. *)
Definition stamp (rt : Runtime) (n : nat) : JsValue :=
  JStr (toISOString rt (clock rt n)).

(** The record that a registration of the current version writes over an
    existing one. *)
Definition updated_record (entries : list JsValue) (address : string)
    (updatedAt : JsValue) : JsObject :=
  [ ("products", JArr entries); ("address", JStr address);
    ("status", JStr "ONLINE"); ("updatedAt", updatedAt) ].

(** The record that a registration of the current version appends. *)
Definition inserted_record (entries : list JsValue) (address : string)
    (createdAt updatedAt : JsValue) : JsObject :=
  [ ("products", JArr entries); ("address", JStr address);
    ("status", JStr "ONLINE"); ("createdAt", createdAt);
    ("updatedAt", updatedAt) ].

(** The directory after an accepted registration of the current version. *)
Definition registered (rt : Runtime) (ip port : JsValue)
    (items : list JsValue) (w : World) : list JsObject :=
  let address := address_of rt ip port in
  match findIndex (at_address address) (directory w) with
  | Some i =>
      store_at i (updated_record (map entry_of items) address
                    (stamp rt (ticks w)))
        (directory w)
  | None =>
      directory w
      ++ [ inserted_record (map entry_of items) address
             (stamp rt (ticks w)) (stamp rt (S (ticks w))) ]
  end.

(** A well-formed registration on a working disk is answered 200; the
    directory is read once and saved once. *)
Lemma register_accepted (rt : Runtime) (req_body ip port : JsValue)
    (items : list JsValue) (w : World) :
  prop req_body "ip" = Some ip -> truthy ip = true ->
  prop req_body "port" = Some port -> truthy port = true ->
  prop req_body "products" = Some (JArr items) -> items <> [] ->
  forallb item_ok items = true ->
  faults w = [] ->
  register rt req_body w
  = (Ok (respond 200 (JObj [ ("message", JStr MSG_REGISTERED) ])),
     {| markets_json := Some (registered rt ip port items w);
        faults := [];
        ticks := match findIndex (at_address (address_of rt ip port))
                         (directory w) with
                 | Some _ => S (ticks w)
                 | None => S (S (ticks w))
                 end;
        probes := probes w;
        trace := trace w ++ [EvRead (present w); EvWrite true] |}).
Proof.
  intros Hip Tip Hport Tport Hprod Hne Hok Hf.
  unfold register. unfold try_catch at 1.
  rewrite Hip, Hport, Hprod, Tip, Tport.
  destruct items as [|i0 its] eqn:Eits; [congruence|]. rewrite <- Eits in *.
  replace (length items =? 0)%nat with false by (rewrite Eits; reflexivity).
  cbn [negb orb].
  rewrite (check_items_accepts items Hok), bind_lift.
  cbn [negb].
  rewrite (bind_ok _ _ _ _ _ (loadMarkets_run w Hf)).
  unfold registered.
  change (fun m : JsObject => is_string (lookup "address" m)
                                (address_of rt ip port))
    with (at_address (address_of rt ip port)).
  destruct (findIndex (at_address (address_of rt ip port)) (directory w)).
  - rewrite (catalog_accepted items (item_ok_readable _ Hok)), bind_lift.
    unfold bind at 1. unfold Date_toISOString at 1.
    erewrite bind_ok; [|apply saveMarkets_ok; exact Hf].
    unfold ret. simpl. rewrite <- app_assoc. reflexivity.
  - rewrite (catalog_accepted items (item_ok_readable _ Hok)), bind_lift.
    unfold bind at 1. unfold Date_toISOString at 1.
    unfold bind at 1. unfold Date_toISOString at 1.
    erewrite bind_ok; [|apply saveMarkets_ok; exact Hf].
    unfold ret. simpl. rewrite <- app_assoc. reflexivity.
Qed.

Lemma at_address_updated (a address : string) (entries : list JsValue)
    (u : JsValue) :
  at_address a (updated_record entries address u) = String.eqb address a.
Proof. reflexivity. Qed.

Lemma at_address_inserted (a address : string) (entries : list JsValue)
    (c u : JsValue) :
  at_address a (inserted_record entries address c u) = String.eqb address a.
Proof. reflexivity. Qed.

Lemma at_address_eqb (a address : string) (m : JsObject) :
  at_address address m = true -> at_address a m = String.eqb address a.
Proof.
  unfold at_address. intros H. apply is_string_true in H. rewrite H.
  reflexivity.
Qed.

(** With at most one record of the address, two records of it are the same. *)
Lemma single_record (test : JsObject -> bool) (l : list JsObject)
    (x y : JsObject) :
  (length (filter test l) <= 1)%nat ->
  In x l -> test x = true -> In y l -> test y = true -> x = y.
Proof.
  intros Hc Hx Tx Hy Ty.
  assert (Fx : In x (filter test l)) by (apply filter_In; tauto).
  assert (Fy : In y (filter test l)) by (apply filter_In; tauto).
  destruct (filter test l) as [|z [|z' rest]]; simpl in *; try lia;
    intuition congruence.
Qed.

Lemma directory_saved (l : list JsObject) (f : list bool) (t p : nat)
    (tr : list Event) :
  directory {| markets_json := Some l; faults := f; ticks := t; probes := p;
               trace := tr |} = l.
Proof. reflexivity. Qed.

(** C6. From a directory with at most one record per address, an accepted
    registration leads to a directory with exactly one record of the
    registered address, which carries the catalog of the request and the
    status ONLINE; there is still at most one record per address, the records
    of the other addresses keep their places and contents, a new address is
    appended as one record and a known address keeps the length. *)
Theorem register_upsert (rt : Runtime) (req_body ip port : JsValue)
    (items : list JsValue) (w : World) :
  prop req_body "ip" = Some ip -> truthy ip = true ->
  prop req_body "port" = Some port -> truthy port = true ->
  prop req_body "products" = Some (JArr items) -> items <> [] ->
  forallb item_ok items = true ->
  faults w = [] ->
  (forall a : string, (count_address a (directory w) <= 1)%nat) ->
  exists (w' : World) (record : JsObject),
    register rt req_body w
    = (Ok (respond 200 (JObj [ ("message", JStr MSG_REGISTERED) ])), w')
    /\ count_address (address_of rt ip port) (directory w') = 1%nat
    /\ In record (directory w')
    /\ lookup "address" record = JStr (address_of rt ip port)
    /\ lookup "products" record = JArr (map entry_of items)
    /\ lookup "status" record = JStr "ONLINE"
    /\ (forall a : string, (count_address a (directory w') <= 1)%nat)
    /\ (forall (j : nat) (m : JsObject),
          nth_error (directory w) j = Some m ->
          at_address (address_of rt ip port) m = false ->
          nth_error (directory w') j = Some m)
    /\ (count_address (address_of rt ip port) (directory w) = 0%nat ->
        directory w' = directory w ++ [record])
    /\ (count_address (address_of rt ip port) (directory w) = 1%nat ->
        length (directory w') = length (directory w)).
Proof.
  intros Hip Tip Hport Tport Hprod Hne Hok Hf Huniq.
  rewrite (register_accepted rt req_body ip port items w
             Hip Tip Hport Tport Hprod Hne Hok Hf).
  set (address := address_of rt ip port).
  unfold registered. fold address.
  destruct (findIndex (at_address address) (directory w)) as [i|] eqn:F.
  - destruct (findIndex_Some _ _ _ F) as (old & Hn & Told & Hfirst).
    assert (Hi : (i < length (directory w))%nat)
      by (apply nth_error_Some; congruence).
    set (record := updated_record (map entry_of items) address
                     (stamp rt (ticks w))).
    assert (Hcount : forall a, count_address a (store_at i record (directory w))
                               = count_address a (directory w)).
    { intros a. unfold count_address. apply (store_at_count _ i record old);
        [exact Hn|].
      rewrite (at_address_eqb a address old Told). reflexivity. }
    assert (Hpos : count_address address (directory w) <> 0%nat).
    { unfold count_address. intros H0. apply length_zero_iff_nil in H0.
      apply findIndex_None in H0. congruence. }
    exists {| markets_json := Some (store_at i record (directory w));
              faults := []; ticks := S (ticks w); probes := probes w;
              trace := trace w ++ [EvRead (present w); EvWrite true] |}, record.
    rewrite !directory_saved.
    split; [reflexivity|].
    split; [rewrite Hcount; specialize (Huniq address); lia|].
    split; [exact (nth_error_In _ _ (store_at_same i record _ Hi))|].
    do 3 (split; [reflexivity|]).
    split; [intros a; rewrite Hcount; apply Huniq|].
    split.
    { intros j m Hj Hm. rewrite store_at_other; [exact Hj|].
      intros ->. congruence. }
    split; [intros H0; contradiction|].
    intros _. apply store_at_length.
  - assert (H0 : count_address address (directory w) = 0%nat).
    { unfold count_address. apply findIndex_None in F. rewrite F. reflexivity. }
    set (record := inserted_record (map entry_of items) address
                     (stamp rt (ticks w)) (stamp rt (S (ticks w)))).
    assert (Hcount : forall a, count_address a (directory w ++ [record])
                               = (count_address a (directory w)
                                  + if String.eqb address a then 1 else 0)%nat).
    { intros a. unfold count_address. rewrite count_app. f_equal.
      simpl. change (at_address a record) with (String.eqb address a).
      destruct (String.eqb address a); reflexivity. }
    exists {| markets_json := Some (directory w ++ [record]);
              faults := []; ticks := S (S (ticks w)); probes := probes w;
              trace := trace w ++ [EvRead (present w); EvWrite true] |}, record.
    rewrite !directory_saved.
    split; [reflexivity|].
    split; [rewrite Hcount, H0, String.eqb_refl; reflexivity|].
    split; [apply in_or_app; right; left; reflexivity|].
    do 3 (split; [reflexivity|]).
    split.
    { intros a. rewrite Hcount. destruct (String.eqb address a) eqn:E.
      - apply String.eqb_eq in E. subst a. rewrite H0. lia.
      - specialize (Huniq a). lia. }
    split.
    { intros j m Hj _. rewrite nth_error_app1; [exact Hj|].
      apply nth_error_Some. congruence. }
    split; [reflexivity|]. intros H1. congruence.
Qed.

(** C9. A registration of an address that has a record replaces the first
    record of that address (the record itself, when the address has one
    record) by an object with exactly the fields products, address, status and
    updatedAt: whatever [createdAt] the old record carried is gone.  A
    registration of an address without a record appends an object that has
    [createdAt], the time of the registration. *)
Theorem reregistration_drops_createdAt (rt : Runtime)
    (req_body ip port : JsValue) (items : list JsValue) (w : World) :
  prop req_body "ip" = Some ip -> truthy ip = true ->
  prop req_body "port" = Some port -> truthy port = true ->
  prop req_body "products" = Some (JArr items) -> items <> [] ->
  forallb item_ok items = true ->
  faults w = [] ->
  (forall old : JsObject,
     In old (directory w) ->
     at_address (address_of rt ip port) old = true ->
     exists (i : nat) (replaced : JsObject) (w' : World),
       register rt req_body w
       = (Ok (respond 200 (JObj [ ("message", JStr MSG_REGISTERED) ])), w')
       /\ nth_error (directory w) i = Some replaced
       /\ at_address (address_of rt ip port) replaced = true
       /\ ((count_address (address_of rt ip port) (directory w) <= 1)%nat ->
           replaced = old)
       /\ nth_error (directory w') i
          = Some [ ("products", JArr (map entry_of items));
                   ("address", JStr (address_of rt ip port));
                   ("status", JStr "ONLINE");
                   ("updatedAt", stamp rt (ticks w)) ]
       /\ (forall stored : JsObject,
             nth_error (directory w') i = Some stored ->
             lookup "createdAt" stored = JUndefined))
  /\ (count_address (address_of rt ip port) (directory w) = 0%nat ->
      exists w' : World,
        register rt req_body w
        = (Ok (respond 200 (JObj [ ("message", JStr MSG_REGISTERED) ])), w')
        /\ directory w'
           = directory w
             ++ [ [ ("products", JArr (map entry_of items));
                    ("address", JStr (address_of rt ip port));
                    ("status", JStr "ONLINE");
                    ("createdAt", stamp rt (ticks w));
                    ("updatedAt", stamp rt (S (ticks w))) ] ]).
Proof.
  intros Hip Tip Hport Tport Hprod Hne Hok Hf.
  rewrite (register_accepted rt req_body ip port items w
             Hip Tip Hport Tport Hprod Hne Hok Hf).
  set (address := address_of rt ip port).
  unfold registered. fold address.
  destruct (findIndex (at_address address) (directory w)) as [i|] eqn:F.
  - split.
    + intros old Hin Told.
      destruct (findIndex_Some _ _ _ F) as (replaced & Hn & Trep & _).
      assert (Hi : (i < length (directory w))%nat)
        by (apply nth_error_Some; congruence).
      exists i, replaced. eexists. rewrite directory_saved.
      split; [reflexivity|]. split; [exact Hn|]. split; [exact Trep|].
      split.
      { intros Hc.
        exact (single_record _ _ _ _ Hc (nth_error_In _ _ Hn) Trep Hin Told). }
      rewrite (store_at_same i _ _ Hi).
      split; [reflexivity|]. intros stored [= <-]. reflexivity.
    + intros H0. exfalso. unfold count_address in H0.
      apply length_zero_iff_nil in H0. apply findIndex_None in H0. congruence.
  - split.
    + intros old Hin Told. exfalso. apply findIndex_None in F.
      assert (Fo : In old (filter (at_address address) (directory w)))
        by (apply filter_In; tauto).
      rewrite F in Fo. exact Fo.
    + intros _. eexists. rewrite directory_saved. split; reflexivity.
Qed.

(** ** Rejected registrations *)

(** The current version answers 400, before it reads the directory, when
    [ip] or [port] is falsy or [products] is not a non-empty array. *)
Lemma register_missing_parameters (rt : Runtime)
    (req_body ip port products : JsValue) (w : World) :
  prop req_body "ip" = Some ip ->
  prop req_body "port" = Some port ->
  prop req_body "products" = Some products ->
  truthy ip = false \/ truthy port = false \/ isArray products = false
  \/ products = JArr [] ->
  register rt req_body w
  = (Ok (respond 400 (error_body MSG_MISSING_PARAMETERS)), w).
Proof.
  intros Hip Hport Hprod H. unfold register, try_catch.
  rewrite Hip, Hport, Hprod.
  destruct products as [| |b|n|s|l|o]; try reflexivity.
  destruct H as [H|[H|[H|H]]].
  - rewrite H. reflexivity.
  - rewrite H, orb_true_r. reflexivity.
  - discriminate.
  - injection H as ->. rewrite !orb_true_r. reflexivity.
Qed.

(** The current version answers 400, before it reads the directory, when an
    item of the catalog lacks a product name or a positive numeric price, all
    items being readable. *)
Lemma register_bad_item (rt : Runtime) (req_body ip port : JsValue)
    (items : list JsValue) (w : World) :
  prop req_body "ip" = Some ip -> truthy ip = true ->
  prop req_body "port" = Some port -> truthy port = true ->
  prop req_body "products" = Some (JArr items) -> items <> [] ->
  forallb readable items = true ->
  forallb item_ok items = false ->
  register rt req_body w
  = (Ok (respond 400 (error_body MSG_NAME_AND_PRICE)), w).
Proof.
  intros Hip Tip Hport Tport Hprod Hne Hr Hbad.
  unfold register. unfold try_catch at 1.
  rewrite Hip, Hport, Hprod, Tip, Tport.
  destruct items as [|i0 its] eqn:Eits; [congruence|]. rewrite <- Eits in *.
  replace (length items =? 0)%nat with false by (rewrite Eits; reflexivity).
  cbn [negb orb].
  rewrite (check_items_forallb items Hr), Hbad, bind_lift. reflexivity.
Qed.

(** ** The legacy version *)

(** The time fields of a stored record: [createdAt] only in a record that was
    appended. *)
Definition stamps (createdAt : option JsValue) (updatedAt : JsValue)
  : list (string * JsValue) :=
  match createdAt with
  | Some c => [ ("createdAt", c); ("updatedAt", updatedAt) ]
  | None => [ ("updatedAt", updatedAt) ]
  end.

(** The record that a registration of the legacy version stores. *)
Definition legacy_record (product priceYen : JsValue) (address : string)
    (createdAt : option JsValue) (updatedAt : JsValue) : JsObject :=
  [ ("product", product); ("price", priceYen); ("address", JStr address);
    ("status", JStr "ONLINE") ] ++ stamps createdAt updatedAt.

(** The directory after an accepted registration of the legacy version. *)
Definition registered_legacy (rt : Runtime) (ip port product priceYen : JsValue)
    (w : World) : list JsObject :=
  let address := address_of rt ip port in
  match findIndex (at_address address) (directory w) with
  | Some i =>
      store_at i (legacy_record product priceYen address
                    None (stamp rt (ticks w)))
        (directory w)
  | None =>
      directory w
      ++ [ legacy_record product priceYen address
             (Some (stamp rt (ticks w))) (stamp rt (S (ticks w))) ]
  end.

Lemma register_legacy_accepted (rt : Runtime)
    (req_body ip port product : JsValue) (n : Q) (w : World) :
  prop req_body "ip" = Some ip -> truthy ip = true ->
  prop req_body "port" = Some port -> truthy port = true ->
  prop req_body "product" = Some product -> truthy product = true ->
  prop req_body "priceYen" = Some (JNum n) -> 0 < n ->
  faults w = [] ->
  exists w' : World,
    register_legacy rt req_body w
    = (Ok (respond 200 (JObj [ ("message", JStr MSG_REGISTERED) ])), w')
    /\ directory w' = registered_legacy rt ip port product (JNum n) w.
Proof.
  intros Hip Tip Hport Tport Hprod Tprod Hprice Hpos Hf.
  unfold register_legacy. unfold try_catch at 1.
  rewrite Hip, Hport, Hprod, Hprice, Tip, Tport, Tprod,
    (positive_truthy n Hpos), (Qle_bool_false _ _ Hpos).
  cbn [negb orb].
  rewrite (bind_ok _ _ _ _ _ (loadMarkets_run w Hf)).
  unfold registered_legacy.
  change (fun m : JsObject => is_string (lookup "address" m)
                                (address_of rt ip port))
    with (at_address (address_of rt ip port)).
  destruct (findIndex (at_address (address_of rt ip port)) (directory w)).
  - unfold bind at 1. unfold Date_toISOString at 1.
    erewrite bind_ok; [|apply saveMarkets_ok; exact Hf].
    eexists. split; reflexivity.
  - unfold bind at 1. unfold Date_toISOString at 1.
    unfold bind at 1. unfold Date_toISOString at 1.
    erewrite bind_ok; [|apply saveMarkets_ok; exact Hf].
    eexists. split; reflexivity.
Qed.

(** The legacy version answers 400 to a body without [product] or without
    [priceYen]: to the shape of the current version. *)
Lemma register_legacy_missing_parameters (rt : Runtime)
    (req_body ip port product priceYen : JsValue) (w : World) :
  prop req_body "ip" = Some ip ->
  prop req_body "port" = Some port ->
  prop req_body "product" = Some product ->
  prop req_body "priceYen" = Some priceYen ->
  truthy product = false \/ truthy priceYen = false ->
  register_legacy rt req_body w
  = (Ok (respond 400 (error_body MSG_MISSING_PARAMETERS)), w).
Proof.
  intros Hip Hport Hprod Hprice H. unfold register_legacy, try_catch.
  rewrite Hip, Hport, Hprod, Hprice.
  destruct H as [H|H]; rewrite H, ?orb_true_r; reflexivity.
Qed.

(** The listing of the current version shows a record stored by the legacy
    version like the record that the current version stores for the same
    single product. *)
Lemma listed_legacy_record (product priceYen : JsValue) (address : string)
    (c c' : option JsValue) (u u' : JsValue) :
  truthy product = true ->
  listed (legacy_record product priceYen address c u)
  = listed ([ ("products",
               JArr [ JObj [ ("product", product); ("price", priceYen) ] ]);
              ("address", JStr address); ("status", JStr "ONLINE") ]
            ++ stamps c' u').
Proof.
  intros T. unfold listed. destruct c, c'; simpl; rewrite T; reflexivity.
Qed.

(** C5, as stated, fails: the current version answers 400 to the legacy
    shape, the legacy version answers 400 to the current shape, and what the
    two versions store for the same store and product differs. *)
Example legacy_shape_is_rejected :
  register Sample.rt Sample.legacy_body Sample.registry
  = (Ok (respond 400 (error_body MSG_MISSING_PARAMETERS)), Sample.registry)
  /\ register_legacy Sample.rt Sample.multi_body Sample.registry
     = (Ok (respond 400 (error_body MSG_MISSING_PARAMETERS)), Sample.registry)
  /\ directory (snd (register_legacy Sample.rt Sample.legacy_body
                       Sample.registry))
     <> directory (snd (register Sample.rt Sample.multi_body Sample.registry)).
Proof.
  split; [reflexivity|]. split; [reflexivity|].
  vm_compute. intros H. discriminate H.
Qed.

(** C5, amended.  Each version of the registry accepts one shape: the current
    version accepts [{ip, port, products}] and stores the catalog as a list of
    [{product, price}]; it answers 400 to a body without [products], which the
    legacy shape is.  The legacy version accepts
    [{ip, product, priceYen, port}] and stores [product] and [price] as fields
    of the record; it answers 400 to a body without [product], which the
    current shape is.  The two stored forms of a single product come to the
    same entry in the listing of the current version.  The current version
    answers 400, with nothing read or written, when [ip] or [port] is falsy,
    when [products] is not a non-empty array, and when an item of a catalog
    of readable items lacks a product name or a positive numeric price. *)
Theorem register_shapes (rt : Runtime) (w : World) :
  (forall (req_body ip port : JsValue) (items : list JsValue),
     prop req_body "ip" = Some ip -> truthy ip = true ->
     prop req_body "port" = Some port -> truthy port = true ->
     prop req_body "products" = Some (JArr items) -> items <> [] ->
     forallb item_ok items = true ->
     faults w = [] ->
     exists w' : World,
       register rt req_body w
       = (Ok (respond 200 (JObj [ ("message", JStr MSG_REGISTERED) ])), w')
       /\ directory w' = registered rt ip port items w)
  /\ (forall req_body ip port : JsValue,
        prop req_body "ip" = Some ip ->
        prop req_body "port" = Some port ->
        prop req_body "products" = Some JUndefined ->
        register rt req_body w
        = (Ok (respond 400 (error_body MSG_MISSING_PARAMETERS)), w))
  /\ (forall (req_body ip port product : JsValue) (n : Q),
        prop req_body "ip" = Some ip -> truthy ip = true ->
        prop req_body "port" = Some port -> truthy port = true ->
        prop req_body "product" = Some product -> truthy product = true ->
        prop req_body "priceYen" = Some (JNum n) -> 0 < n ->
        faults w = [] ->
        exists w' : World,
          register_legacy rt req_body w
          = (Ok (respond 200 (JObj [ ("message", JStr MSG_REGISTERED) ])), w')
          /\ directory w' = registered_legacy rt ip port product (JNum n) w)
  /\ (forall req_body ip port priceYen : JsValue,
        prop req_body "ip" = Some ip ->
        prop req_body "port" = Some port ->
        prop req_body "product" = Some JUndefined ->
        prop req_body "priceYen" = Some priceYen ->
        register_legacy rt req_body w
        = (Ok (respond 400 (error_body MSG_MISSING_PARAMETERS)), w))
  /\ (forall (product priceYen : JsValue) (address : string)
             (c c' : option JsValue) (u u' : JsValue),
        truthy product = true ->
        listed (legacy_record product priceYen address c u)
        = listed ([ ("products",
                     JArr [ JObj [ ("product", product);
                                   ("price", priceYen) ] ]);
                    ("address", JStr address); ("status", JStr "ONLINE") ]
                  ++ stamps c' u'))
  /\ (forall req_body ip port products : JsValue,
        prop req_body "ip" = Some ip ->
        prop req_body "port" = Some port ->
        prop req_body "products" = Some products ->
        truthy ip = false \/ truthy port = false \/ isArray products = false
        \/ products = JArr [] ->
        register rt req_body w
        = (Ok (respond 400 (error_body MSG_MISSING_PARAMETERS)), w))
  /\ (forall (req_body ip port : JsValue) (items : list JsValue),
        prop req_body "ip" = Some ip -> truthy ip = true ->
        prop req_body "port" = Some port -> truthy port = true ->
        prop req_body "products" = Some (JArr items) -> items <> [] ->
        forallb readable items = true ->
        forallb item_ok items = false ->
        register rt req_body w
        = (Ok (respond 400 (error_body MSG_NAME_AND_PRICE)), w)).
Proof.
  split.
  { intros req_body ip port items Hip Tip Hport Tport Hprod Hne Hok Hf.
    rewrite (register_accepted rt req_body ip port items w
               Hip Tip Hport Tport Hprod Hne Hok Hf).
    eexists. split; reflexivity. }
  split.
  { intros req_body ip port Hip Hport Hprod.
    apply (register_missing_parameters rt req_body ip port JUndefined w
             Hip Hport Hprod).
    right. right. left. reflexivity. }
  split; [intros; eapply register_legacy_accepted; eassumption|].
  split.
  { intros req_body ip port priceYen Hip Hport Hprod Hprice.
    apply (register_legacy_missing_parameters rt req_body ip port JUndefined
             priceYen w Hip Hport Hprod Hprice).
    left. reflexivity. }
  split; [intros; apply listed_legacy_record; assumption|].
  split; [intros; eapply register_missing_parameters; eassumption|].
  intros. eapply register_bad_item; eassumption.
Qed.

(** ** The health monitor *)

(** The URL that is probed for a record. *)
Definition health_url (rt : Runtime) (m : JsObject) : string :=
  String.append "http://"
    (String.append (ToString rt (lookup "address" m)) "/health").

(** A probe that came back with status 200. *)
Definition alive (o : ProbeOutcome) : bool :=
  match o with
  | Responded code => (code =? 200)%Z
  | _ => false
  end.

Lemma alive_iff (o : ProbeOutcome) : alive o = true <-> o = Responded 200.
Proof.
  destruct o as [code| |]; simpl; split; try discriminate.
  - intros H. apply Z.eqb_eq in H. congruence.
  - intros [= ->]. reflexivity.
Qed.

Lemma checkServerHealth_run (rt : Runtime)
    (net : nat -> string -> ProbeOutcome) (m : JsObject) (w : World) :
  checkServerHealth rt net (lookup "address" m) w
  = (Ok (alive (net (probes w) (health_url rt m))),
     with_probes (S (probes w))
       (with_trace (trace w ++ [EvProbe (health_url rt m)]) w)).
Proof.
  unfold checkServerHealth, try_catch, bind, axios_get, ret.
  fold (health_url rt m).
  destruct (net (probes w) (health_url rt m)) as [code| |]; try reflexivity.
  simpl alive.
  destruct ((200 <=? code)%Z && (code <? 300)%Z) eqn:E; [reflexivity|].
  replace (code =? 200)%Z with false; [reflexivity|].
  symmetry. apply Z.eqb_neq. intros ->. discriminate E.
Qed.

(** The records after the probes, the first probe being the n-th of the
    process. *)
Fixpoint swept (rt : Runtime) (net : nat -> string -> ProbeOutcome) (n : nat)
    (markets : list JsObject) : list JsObject :=
  match markets with
  | [] => []
  | m :: rest =>
      assign "status"
        (JStr (if alive (net n (health_url rt m)) then "ONLINE" else "OFFLINE"))
        m
      :: swept rt net (S n) rest
  end.

Lemma check_all_run (rt : Runtime) (net : nat -> string -> ProbeOutcome)
    (markets : list JsObject) (w : World) :
  check_all rt net markets w
  = (Ok (swept rt net (probes w) markets),
     {| markets_json := markets_json w; faults := faults w; ticks := ticks w;
        probes := (probes w + length markets)%nat;
        trace := trace w ++ map (fun m => EvProbe (health_url rt m)) markets |}).
Proof.
  revert w. induction markets as [|m rest IH]; intros w.
  - destruct w. simpl. rewrite Nat.add_0_r, app_nil_r. reflexivity.
  - cbn [check_all].
    rewrite (bind_ok _ _ _ _ _ (checkServerHealth_run rt net m w)).
    rewrite (bind_ok _ _ _ _ _ (IH _)).
    unfold ret. simpl. rewrite <- app_assoc, Nat.add_succ_r. reflexivity.
Qed.

Lemma swept_length (rt : Runtime) (net : nat -> string -> ProbeOutcome)
    (n : nat) (markets : list JsObject) :
  length (swept rt net n markets) = length markets.
Proof.
  revert n. induction markets as [|m rest IH]; intros n; simpl;
    [reflexivity|]. rewrite IH. reflexivity.
Qed.

Lemma swept_nth (rt : Runtime) (net : nat -> string -> ProbeOutcome)
    (n i : nat) (markets : list JsObject) (m : JsObject) :
  nth_error markets i = Some m ->
  nth_error (swept rt net n markets) i
  = Some (assign "status"
            (JStr (if alive (net (n + i)%nat (health_url rt m))
                   then "ONLINE" else "OFFLINE")) m).
Proof.
  revert n i. induction markets as [|m0 rest IH]; intros n [|i]; simpl;
    try discriminate.
  - intros [= ->]. rewrite Nat.add_0_r. reflexivity.
  - intros H. rewrite (IH (S n) i H), Nat.add_succ_r. reflexivity.
Qed.

(** A sweep on a working disk: one read, one probe per record, one save. *)
Lemma performHealthChecks_run (rt : Runtime)
    (net : nat -> string -> ProbeOutcome) (w : World) :
  faults w = [] ->
  performHealthChecks rt net w
  = (Ok tt,
     {| markets_json := Some (swept rt net (probes w) (directory w));
        faults := []; ticks := ticks w;
        probes := (probes w + length (directory w))%nat;
        trace := trace w ++ [EvRead (present w)]
                 ++ map (fun m => EvProbe (health_url rt m)) (directory w)
                 ++ [EvWrite true] |}).
Proof.
  intros Hf. unfold performHealthChecks. unfold try_catch at 1.
  rewrite (bind_ok _ _ _ _ _ (loadMarkets_run w Hf)).
  rewrite (bind_ok _ _ _ _ _ (check_all_run rt net _ _)).
  erewrite saveMarkets_ok by exact Hf.
  simpl. rewrite <- !app_assoc. reflexivity.
Qed.

(** C7. A sweep over a directory of n records sets the status of each record
    to ONLINE exactly when its probe came back with status 200, and to
    OFFLINE otherwise (another status, a timeout, a connection failure); the
    other fields of a record are kept; the directory has the same number of
    records in the same places; and the new statuses are written in one save,
    the last operation of the sweep, after one probe per record. *)
Theorem sweep_updates_statuses (rt : Runtime)
    (net : nat -> string -> ProbeOutcome) (w : World) :
  faults w = [] ->
  exists w' : World,
    performHealthChecks rt net w = (Ok tt, w')
    /\ length (directory w') = length (directory w)
    /\ (forall (i : nat) (m : JsObject),
          nth_error (directory w) i = Some m ->
          exists m' : JsObject,
            nth_error (directory w') i = Some m'
            /\ (lookup "status" m' = JStr "ONLINE"
                <-> net (probes w + i)%nat (health_url rt m) = Responded 200)
            /\ (lookup "status" m' = JStr "OFFLINE"
                <-> net (probes w + i)%nat (health_url rt m) <> Responded 200)
            /\ (forall k : string,
                  k <> "status" -> lookup k m' = lookup k m))
    /\ trace w'
       = trace w ++ [EvRead (present w)]
         ++ map (fun m => EvProbe (health_url rt m)) (directory w)
         ++ [EvWrite true].
Proof.
  intros Hf. rewrite (performHealthChecks_run rt net w Hf).
  eexists. split; [reflexivity|]. rewrite directory_saved.
  split; [apply swept_length|]. split; [|reflexivity].
  intros i m Hn. eexists. split; [exact (swept_nth rt net _ i _ m Hn)|].
  rewrite lookup_assign_same.
  pose proof (alive_iff (net (probes w + i)%nat (health_url rt m))) as Ha.
  destruct (alive (net (probes w + i)%nat (health_url rt m))).
  - split; [split; [intros _; apply Ha; reflexivity|reflexivity]|].
    split.
    + split; [discriminate|]. intros H. exfalso. apply H, Ha. reflexivity.
    + intros k Hk. apply lookup_assign_other, Hk.
  - split.
    + split; [discriminate|]. intros H. apply Ha in H. discriminate.
    + split.
      * split; [|reflexivity]. intros _ H. apply Ha in H. discriminate.
      * intros k Hk. apply lookup_assign_other, Hk.
Qed.

(** ** The theorems at work on the sample registry *)

Lemma register_shapes_witness :
  (exists w' : World,
     register Sample.rt Sample.multi_body Sample.registry
     = (Ok (respond 200 (JObj [ ("message", JStr MSG_REGISTERED) ])), w')
     /\ length (directory w') = 1%nat)
  /\ register Sample.rt Sample.legacy_body Sample.registry
     = (Ok (respond 400 (error_body MSG_MISSING_PARAMETERS)), Sample.registry).
Proof.
  split.
  - destruct (proj1 (register_shapes Sample.rt Sample.registry)
                Sample.multi_body (JStr "10.0.0.1") (JNum 9000)
                [ JObj [ ("product", JStr "juice"); ("priceYen", JNum 100) ] ]
                eq_refl eq_refl eq_refl eq_refl eq_refl
                ltac:(discriminate) eq_refl eq_refl)
      as (w' & H & D).
    exists w'. split; [exact H|]. rewrite D. reflexivity.
  - exact (proj1 (proj2 (register_shapes Sample.rt Sample.registry))
             Sample.legacy_body (JStr "10.0.0.1") (JNum 9000)
             eq_refl eq_refl eq_refl).
Defined.

Lemma register_upsert_witness :
  exists w' : World,
    register Sample.rt Sample.multi_body Sample.known_registry
    = (Ok (respond 200 (JObj [ ("message", JStr MSG_REGISTERED) ])), w')
    /\ count_address "10.0.0.1:9000" (directory w') = 1%nat
    /\ length (directory w') = 1%nat.
Proof.
  destruct (register_upsert Sample.rt Sample.multi_body (JStr "10.0.0.1")
              (JNum 9000)
              [ JObj [ ("product", JStr "juice"); ("priceYen", JNum 100) ] ]
              Sample.known_registry
              eq_refl eq_refl eq_refl eq_refl eq_refl
              ltac:(discriminate) eq_refl eq_refl
              ltac:(intros a; unfold count_address; simpl;
                    destruct (at_address a _); simpl; lia))
    as (w' & record & H & C & _ & _ & _ & _ & _ & _ & _ & L).
  exists w'. split; [exact H|]. split; [exact C|]. exact (L eq_refl).
Defined.

Lemma reregistration_drops_createdAt_witness :
  exists (i : nat) (w' : World),
    register Sample.rt Sample.multi_body Sample.known_registry
    = (Ok (respond 200 (JObj [ ("message", JStr MSG_REGISTERED) ])), w')
    /\ forall stored : JsObject,
         nth_error (directory w') i = Some stored ->
         lookup "createdAt" stored = JUndefined.
Proof.
  destruct (proj1 (reregistration_drops_createdAt Sample.rt Sample.multi_body
                     (JStr "10.0.0.1") (JNum 9000)
                     [ JObj [ ("product", JStr "juice");
                              ("priceYen", JNum 100) ] ]
                     Sample.known_registry
                     eq_refl eq_refl eq_refl eq_refl eq_refl
                     ltac:(discriminate) eq_refl eq_refl)
              _ (or_introl eq_refl) eq_refl)
    as (i & replaced & w' & H & _ & _ & _ & _ & C).
  exists i, w'. split; [exact H|exact C].
Defined.

Lemma sweep_updates_statuses_witness :
  exists w' : World,
    performHealthChecks Sample.rt Sample.net Sample.known_registry = (Ok tt, w')
    /\ length (directory w') = 1%nat.
Proof.
  destruct (sweep_updates_statuses Sample.rt Sample.net Sample.known_registry
              eq_refl) as (w' & H & L & _).
  exists w'. split; [exact H|exact L].
Defined.

End RegistryFacts.

(* ------------------------------------------------------------------------- *)
(** * Invariants of the store under every request and every storage fault *)
(* ------------------------------------------------------------------------- *)

Module StoreInvariants.

Import Store JsFacts StoreFacts.

Ltac open_world w :=
  destruct w as [st0 mp0 ip0 d0 fs0 tk0 dr0 tr0]; destruct d0 as [aj0 tj0 lk0];
  simpl in *; subst.

Ltac eff_unfold :=
  unfold updateAssets, recordTransaction, loadAssets,
    loadTransactions, readJSON, writeJSON, openSync_wx, unlinkSync,
    the_product, Date_now, Math_random, next_fault, emit, try_catch,
    try_finally, bind, ret, throw, lift.

Ltac eff_simpl :=
  cbv beta iota zeta delta
    -[Qplus Qmult Qminus Qle_bool Qltb Qfloor inject_Z Z.div String.eqb
      find_item decrement sale truthy createInitialAssets recorded
      MSG_LOCKED file_name clock app].

(** The answer of [/buy] to the outcome of [processPurchase]. *)
Definition answer (r : Outcome JsValue * World) : Outcome Response * World :=
  match r with
  | (Ok result, w') => (Ok {| status := 200; body := result |}, w')
  | (Throw (Error message), w') =>
      if String.eqb message MSG_PRODUCT_MISMATCH
         || String.eqb message MSG_OUT_OF_STOCK
      then (Ok {| status := 409; body := error_body message |}, w')
      else (Ok {| status := 500; body := error_body MSG_SERVER_ERROR |}, w')
  | (Throw _, w') =>
      (Ok {| status := 500; body := error_body MSG_SERVER_ERROR |}, w')
  end.

(** Every request is either answered without any effect and not with 200, or
    it is a well-formed order of the defined product, which goes through the
    ledger step. *)
Lemma buy_cases (rt : Runtime) (req : Request) (w : World) :
  (exists r : Response, buy rt req w = (Ok r, w) /\ status r <> 200%Z)
  \/ (exists (p : Product) (q : Q),
        myProduct w = Some p /\ 0 < q
        /\ buy rt req w
           = answer (processPurchase rt (JStr (name p)) q
                       (replace "::ffff:" EmptyString (ip req)) w)).
Proof.
  destruct (state_eqb (serverState w) ACTIVE) eqn:Hs.
  2:{ left. eexists.
      split; [apply buy_not_active; intros H; rewrite H in Hs; discriminate|].
      discriminate. }
  assert (Hact : serverState w = ACTIVE) by (destruct (serverState w); easy).
  destruct (prop (req_body req) "product") as [product|] eqn:Hp.
  2:{ left. eexists. unfold buy, try_catch. rewrite Hs, Hp. simpl.
      split; [reflexivity|discriminate]. }
  destruct (prop (req_body req) "qty") as [qty|] eqn:Hq.
  2:{ left. eexists. unfold buy, try_catch. rewrite Hs, Hp, Hq. simpl.
      split; [reflexivity|discriminate]. }
  destruct (truthy product) eqn:Tp.
  2:{ left. destruct (buy_malformed rt req w product qty Hact Hp Hq
                        (or_introl Tp)) as [msg H].
      eexists. split; [exact H|discriminate]. }
  destruct (is_number qty) eqn:Nq.
  2:{ left. destruct (buy_malformed rt req w product qty Hact Hp Hq
                        (or_intror (or_intror (or_introl Nq)))) as [msg H].
      eexists. split; [exact H|discriminate]. }
  destruct qty as [| |b|q|s|l|o]; try discriminate.
  destruct (Qlt_le_dec 0 q) as [Hpos|Hnp].
  2:{ left. destruct (buy_malformed rt req w product (JNum q) Hact Hp Hq
                        (or_intror (or_intror (or_intror
                           (ex_intro _ q (conj eq_refl Hnp))))))
        as [msg H].
      eexists. split; [exact H|discriminate]. }
  rewrite (buy_valid rt req w product q Hact Hp Tp Hq Hpos).
  destruct (myProduct w) as [p|] eqn:Hmp.
  2:{ left. unfold processPurchase, bind, the_product. rewrite Hmp.
      eexists. split; [reflexivity|discriminate]. }
  destruct (is_string product (name p)) eqn:Hn.
  - right. apply is_string_true in Hn. subst product.
    exists p, q. split; [reflexivity|]. split; [exact Hpos|]. reflexivity.
  - left. rewrite (processPurchase_mismatch rt w p _ _ _ Hmp Hn).
    eexists. split; [reflexivity|discriminate].
Qed.

Lemma answer_world (r : Outcome JsValue * World) : snd (answer r) = snd r.
Proof.
  destruct r as [[result|[message| | |]] w']; try reflexivity.
  simpl. destruct (String.eqb message MSG_PRODUCT_MISMATCH
                   || String.eqb message MSG_OUT_OF_STOCK); reflexivity.
Qed.


(** What stays as it is across an operation on the ledger or on the log: the
    globals of the process and its counters of clock readings and draws. *)
Definition same_process (w w' : World) : Prop :=
  serverState w' = serverState w /\ myProduct w' = myProduct w
  /\ myIpAddress w' = myIpAddress w /\ ticks w' = ticks w
  /\ draws w' = draws w.

(** The ledger step, whatever the storage does: the lock is free again and the
    log untouched; either the mutator ran on the ledger read from the file (or
    on the initial ledger, written in place of a ledger that could not be
    read) and its result is on disk, or the call threw and the ledger on disk
    is the one before or the initial one. *)
Lemma updateAssets_cases (updateFn : Assets -> Outcome Assets) (w : World) :
  assets_lock (disk w) = false ->
  same_process w (snd (updateAssets updateFn w))
  /\ transactions_json (disk (snd (updateAssets updateFn w)))
     = transactions_json (disk w)
  /\ assets_lock (disk (snd (updateAssets updateFn w))) = false
  /\ ((exists a a' : Assets,
         (assets_json (disk w) = Some a \/ a = createInitialAssets)
         /\ updateFn a = Ok a'
         /\ fst (updateAssets updateFn w) = Ok a'
         /\ assets_json (disk (snd (updateAssets updateFn w))) = Some a')
      \/ ((exists e : Exn, fst (updateAssets updateFn w) = Throw e)
          /\ (assets_json (disk (snd (updateAssets updateFn w)))
              = assets_json (disk w)
              \/ assets_json (disk (snd (updateAssets updateFn w)))
                 = Some createInitialAssets))).
Proof.
  intros Hl. open_world w.
  destruct fs0 as [|[] [|[] [|[] fs']]]; destruct aj0 as [a|];
    eff_unfold; eff_simpl;
    try (destruct (updateFn a) as [a1|e1] eqn:E; eff_simpl);
    try (destruct (updateFn createInitialAssets) as [a2|e2] eqn:E';
         eff_simpl);
    (split; [repeat split|]); (split; [reflexivity|]);
    (split; [reflexivity|]);
    first
      [ right; split;
        [ eexists; reflexivity
        | first [left; reflexivity | right; reflexivity] ]
      | left; do 2 eexists;
        (split; [(left; reflexivity) + (right; reflexivity)|]);
        split; [eassumption|]; split; reflexivity ].
Qed.

(** The append to the log, whatever the storage does: the ledger and the lock
    are untouched; when it returns, the entry is the last record of the log,
    after the records the log had or, where the log could not be read, after
    none. *)
Lemma recordTransaction_cases (rt : Runtime) (t : Trade) (w : World) :
  serverState (snd (recordTransaction rt t w)) = serverState w
  /\ myProduct (snd (recordTransaction rt t w)) = myProduct w
  /\ assets_json (disk (snd (recordTransaction rt t w)))
     = assets_json (disk w)
  /\ assets_lock (disk (snd (recordTransaction rt t w)))
     = assets_lock (disk w)
  /\ (fst (recordTransaction rt t w) = Ok tt ->
      exists (l : list Transaction) (time : Z),
        (l = recorded (disk w) \/ l = [])
        /\ transactions_json (disk (snd (recordTransaction rt t w)))
           = Some (l ++ [ {| entry := t; ts := time |} ])).
Proof.
  open_world w. unfold recorded.
  destruct fs0 as [|[] [|[] [|[] fs']]]; destruct tj0 as [l|];
    eff_unfold; eff_simpl;
    (do 4 (split; [reflexivity|])); intros H; try discriminate H;
    do 2 eexists;
    solve [split; [(left; reflexivity) + (right; reflexivity)|reflexivity]].
Qed.

(** ** The lock across a request *)

(** X1. A purchase request never changes whether the lock marker exists,
    whatever the request and whatever the storage does: a free lock is free
    again when the request is answered, and a marker that is there (held by
    another update, or left behind by a crash) is never removed. *)
Theorem buy_preserves_lock_state (rt : Runtime) (req : Request) (w : World) :
  assets_lock (disk (snd (buy rt req w))) = assets_lock (disk w).
Proof.
  destruct (buy_cases rt req w) as [[r [H _]]|(p & q & Hp & Hpos & H)];
    rewrite H; [reflexivity|].
  rewrite answer_world, (processPurchase_run rt w p q _ Hp).
  set (w0 := with_draws (S (draws w)) (with_ticks (S (ticks w)) w)).
  destruct (assets_lock (disk w)) eqn:Hl.
  - rewrite (updateAssets_locked _ w0 Hl). exact Hl.
  - destruct (updateAssets_cases (sale p (JStr (name p)) q) w0 Hl)
      as (_ & _ & Hfree & _).
    destruct (updateAssets _ w0) as [[a'|e] w1]; [|exact Hfree].
    match goal with
    | |- context [ recordTransaction rt ?t w1 ] =>
        destruct (recordTransaction_cases rt t w1) as (_ & _ & _ & Hk & _);
        destruct (recordTransaction rt t w1) as [[u|e] w2]
    end; simpl in *; congruence.
Qed.

(** X2. While the lock marker is there, no purchase succeeds and no request
    changes anything on the disk: every request is answered with another
    status than 200, and the ledger, the log and the marker stay as they
    are. *)
Theorem buy_under_held_lock (rt : Runtime) (req : Request) (w : World) :
  assets_lock (disk w) = true ->
  disk (snd (buy rt req w)) = disk w
  /\ forall r : Response, fst (buy rt req w) = Ok r -> status r <> 200%Z.
Proof.
  intros Hl.
  destruct (buy_cases rt req w) as [[r [H Hs]]|(p & q & Hp & Hpos & H)];
    rewrite H.
  - split; [reflexivity|]. intros r' [= <-]. exact Hs.
  - rewrite (processPurchase_run rt w p q _ Hp).
    rewrite (updateAssets_locked _
               (with_draws (S (draws w)) (with_ticks (S (ticks w)) w)) Hl).
    split; [reflexivity|]. intros r' [= <-]. discriminate.
Qed.

(** ** The stock across a request *)

(** Every quantity of the persisted inventory is at least zero. *)
Definition stock_ok (w : World) : Prop :=
  forall a : Assets,
    assets_json (disk w) = Some a ->
    Forall (fun item => 0 <= qty item) (inventory a).

(** What a returning [sale] has found and done. *)
Lemma sale_returns (p : Product) (productName : JsValue) (q : Q)
    (a a' : Assets) :
  sale p productName q a = Ok a' ->
  exists item : InventoryItem,
    find_item productName a = Some item
    /\ q <= qty item
    /\ a' = {| capitalYen := capitalYen a + priceYen p * q;
               procurementPts := procurementPts a;
               inventory := decrement productName q (inventory a);
               collection := collection a |}.
Proof.
  unfold sale. destruct (find_item productName a) as [item|]; [|discriminate].
  destruct (Qltb (qty item) q) eqn:E; [discriminate|].
  intros [= <-]. exists item. split; [reflexivity|]. split; [|reflexivity].
  unfold Qltb in E. apply negb_false_iff, Qle_bool_iff in E. exact E.
Qed.

Lemma decrement_nonnegative (productName : JsValue) (q : Q)
    (items : list InventoryItem) (item : InventoryItem) :
  Forall (fun i => 0 <= qty i) items ->
  find (fun i => is_string productName (product i)) items = Some item ->
  q <= qty item ->
  Forall (fun i => 0 <= qty i) (decrement productName q items).
Proof.
  intros Hall. induction Hall as [|i rest Hi Hrest IH]; simpl; [discriminate|].
  destruct (is_string productName (product i)).
  - intros [= ->] Hq. constructor; [|exact Hrest]. simpl.
    unfold Qminus. rewrite <- Qle_minus_iff. exact Hq.
  - intros Hf Hq. constructor; [exact Hi|exact (IH Hf Hq)].
Qed.

Lemma sale_keeps_stock (p : Product) (productName : JsValue) (q : Q)
    (a a' : Assets) :
  Forall (fun i => 0 <= qty i) (inventory a) ->
  sale p productName q a = Ok a' ->
  Forall (fun i => 0 <= qty i) (inventory a').
Proof.
  intros Hall Hs. destruct (sale_returns _ _ _ _ _ Hs) as (item & Hi & Hq & ->).
  simpl. exact (decrement_nonnegative _ q _ item Hall Hi Hq).
Qed.

(** X3. No request ever drives a stock below zero: if every quantity of the
    persisted inventory is at least zero before a purchase request, then so it
    is after it, whatever the request and whatever the storage does. *)
Theorem buy_keeps_stock_nonnegative (rt : Runtime) (req : Request)
    (w : World) :
  stock_ok w -> stock_ok (snd (buy rt req w)).
Proof.
  intros Hok.
  destruct (buy_cases rt req w) as [[r [H _]]|(p & q & Hp & Hpos & H)];
    rewrite H; [exact Hok|].
  rewrite answer_world, (processPurchase_run rt w p q _ Hp).
  set (w0 := with_draws (S (draws w)) (with_ticks (S (ticks w)) w)).
  assert (Hok0 : stock_ok w0) by exact Hok.
  destruct (assets_lock (disk w)) eqn:Hl.
  { rewrite (updateAssets_locked _ w0 Hl). exact Hok. }
  assert (Hinit : Forall (fun i => 0 <= qty i) (inventory createInitialAssets))
    by constructor.
  destruct (updateAssets_cases (sale p (JStr (name p)) q) w0 Hl)
    as (_ & _ & _ & Hcases).
  destruct (updateAssets _ w0) as [r1 w1]. simpl in Hcases.
  assert (Hok1 : stock_ok w1).
  { intros a1 Ha1.
    destruct Hcases as [(a & a' & Hfrom & Hsale & _ & Hdisk)|[_ [Hd|Hd]]].
    - rewrite Hdisk in Ha1. injection Ha1 as Heq. subst a1.
      apply (sale_keeps_stock p (JStr (name p)) q a a'); [|exact Hsale].
      destruct Hfrom as [Hfrom| ->]; [exact (Hok0 a Hfrom)|exact Hinit].
    - rewrite Hd in Ha1. exact (Hok0 a1 Ha1).
    - rewrite Hd in Ha1. injection Ha1 as Heq. subst a1. exact Hinit. }
  destruct r1 as [a'|e]; [|exact Hok1].
  match goal with
  | |- context [ recordTransaction rt ?t w1 ] =>
      destruct (recordTransaction_cases rt t w1) as (_ & _ & Hk & _);
      destruct (recordTransaction rt t w1) as [[u|e] w2]
  end; simpl in *; intros a2 Ha2; rewrite Hk in Ha2; exact (Hok1 a2 Ha2).
Qed.


(** ** Orders in a row *)





(** ** The log and the first access to the ledger *)

(** X6. The append to the log does not look at the lock: on a working disk,
    with the lock free or held, it returns, the log is the log before followed
    by the entry, stamped with the clock in whole seconds, and the ledger and
    the lock marker are untouched. *)
Theorem recordTransaction_appends (rt : Runtime) (t : Trade) (w : World) :
  faults w = [] ->
  exists w' : World,
    recordTransaction rt t w = (Ok tt, w')
    /\ recorded (disk w')
       = recorded (disk w)
         ++ [ {| entry := t; ts := (clock rt (ticks w) / 1000)%Z |} ]
    /\ (1000 * (clock rt (ticks w) / 1000) <= clock rt (ticks w)
        < 1000 * (clock rt (ticks w) / 1000) + 1000)%Z
    /\ assets_json (disk w') = assets_json (disk w)
    /\ assets_lock (disk w') = assets_lock (disk w).
Proof.
  intros Hf. rewrite (recordTransaction_ok rt t w Hf).
  eexists. split; [reflexivity|]. split; [reflexivity|].
  split; [|split; reflexivity].
  pose proof (Z.mul_div_le (clock rt (ticks w)) 1000 eq_refl).
  pose proof (Z.mul_succ_div_gt (clock rt (ticks w)) 1000 eq_refl).
  lia.
Qed.

(** X7. The first access to a ledger that does not exist creates it: on a
    working disk [loadAssets] returns the initial ledger (a capital and
    procurement points of 100000000 each, nothing in stock), the file then
    holds it, and the next [loadAssets] returns the same ledger from the file
    without writing. *)
Theorem loadAssets_first_access (w : World) :
  assets_json (disk w) = None ->
  faults w = [] ->
  exists w1 : World,
    loadAssets w = (Ok createInitialAssets, w1)
    /\ assets_json (disk w1) = Some createInitialAssets
    /\ capitalYen createInitialAssets = 100000000
    /\ procurementPts createInitialAssets = 100000000
    /\ inventory createInitialAssets = []
    /\ trace w1 = trace w ++ [EvRead ASSETS_FILE false; EvWrite ASSETS_FILE true]
    /\ loadAssets w1
       = (Ok createInitialAssets,
          with_trace (trace w1 ++ [EvRead ASSETS_FILE true]) w1).
Proof.
  intros Ha Hf. open_world w. eff_unfold. eff_simpl. eexists.
  split; [reflexivity|]. eff_simpl. rewrite <- app_assoc.
  repeat (split; [reflexivity|]). reflexivity.
Qed.

(** ** The theorems at work on the sample store *)

Lemma buy_under_held_lock_witness :
  disk (snd (buy Sample.rt (Sample.order "juice" 5) Sample.locked_store))
  = disk Sample.locked_store.
Proof.
  exact (proj1 (buy_under_held_lock Sample.rt (Sample.order "juice" 5)
                  Sample.locked_store eq_refl)).
Defined.

Lemma sample_stock_ok : stock_ok Sample.store.
Proof.
  intros a [= <-]. simpl. constructor; [|constructor].
  simpl. unfold Qle. simpl. lia.
Defined.

Lemma buy_keeps_stock_nonnegative_witness :
  stock_ok (snd (buy Sample.rt (Sample.order "juice" 5) Sample.store)).
Proof.
  exact (buy_keeps_stock_nonnegative Sample.rt (Sample.order "juice" 5)
           Sample.store sample_stock_ok).
Defined.



Lemma recordTransaction_appends_witness :
  exists w' : World,
    recordTransaction Sample.rt
      {| tradeId := "trade-1"; buyer := "10.0.0.7"; seller := "127.0.0.1";
         sold := JStr "juice"; amount := 5; price := 100 |}
      Sample.locked_store = (Ok tt, w')
    /\ assets_lock (disk w') = true.
Proof.
  destruct (recordTransaction_appends Sample.rt
              {| tradeId := "trade-1"; buyer := "10.0.0.7";
                 seller := "127.0.0.1"; sold := JStr "juice"; amount := 5;
                 price := 100 |}
              Sample.locked_store eq_refl) as (w' & H & _ & _ & _ & L).
  exists w'. split; [exact H|exact L].
Defined.

Lemma loadAssets_first_access_witness :
  exists w1 : World,
    loadAssets (with_disk {| assets_json := None; transactions_json := None;
                             assets_lock := false |} Sample.store)
    = (Ok createInitialAssets, w1)
    /\ assets_json (disk w1) = Some createInitialAssets.
Proof.
  destruct (loadAssets_first_access
              (with_disk {| assets_json := None; transactions_json := None;
                            assets_lock := false |} Sample.store)
              eq_refl eq_refl) as (w1 & H & A & _).
  exists w1. split; [exact H|exact A].
Defined.

(** ** The value in the ledger and a ledger that cannot be read *)


(** X9. A ledger that cannot be read is replaced by the initial ledger: when
    the read of [assets.json] fails during a well-formed order, with the rest
    of the storage working, [loadAssets] writes the initial ledger over the
    file; the order then finds no stock and is answered 409, and the ledger
    on disk is the initial one, whatever capital and stock the file held. *)
Theorem unreadable_ledger_is_reset (rt : Runtime) (req : Request) (w : World)
    (p : Product) (q : Q) :
  serverState w = ACTIVE -> myProduct w = Some p -> name p <> EmptyString ->
  prop (req_body req) "product" = Some (JStr (name p)) ->
  prop (req_body req) "qty" = Some (JNum q) -> 0 < q ->
  assets_lock (disk w) = false ->
  faults w = [true] ->
  fst (buy rt req w)
  = Ok {| status := 409; body := error_body MSG_OUT_OF_STOCK |}
  /\ assets_json (disk (snd (buy rt req w))) = Some createInitialAssets
  /\ transactions_json (disk (snd (buy rt req w)))
     = transactions_json (disk w)
  /\ assets_lock (disk (snd (buy rt req w))) = false.
Proof.
  intros Hs Hp Hne Hprod Hqty Hpos Hl Hf.
  rewrite (buy_valid rt req w _ q Hs Hprod (nonempty_truthy _ Hne) Hqty Hpos).
  rewrite (processPurchase_run rt w p q _ Hp).
  assert (H : exists tr,
            updateAssets (sale p (JStr (name p)) q)
              (with_draws (S (draws w)) (with_ticks (S (ticks w)) w))
            = (Throw (Error MSG_OUT_OF_STOCK),
               {| serverState := serverState w; myProduct := myProduct w;
                  myIpAddress := myIpAddress w;
                  disk := {| assets_json := Some createInitialAssets;
                             transactions_json := transactions_json (disk w);
                             assets_lock := false |};
                  faults := []; ticks := S (ticks w); draws := S (draws w);
                  trace := tr |})).
  { open_world w. eff_unfold. eff_simpl. eexists. reflexivity. }
  destruct H as [tr H]. rewrite H. simpl. repeat split.
Qed.


Lemma unreadable_ledger_is_reset_witness :
  assets_json
    (disk (snd (buy Sample.rt (Sample.order "juice" 5)
                  (with_faults [true] Sample.store))))
  = Some createInitialAssets.
Proof.
  exact (proj1 (proj2 (unreadable_ledger_is_reset Sample.rt
                         (Sample.order "juice" 5)
                         (with_faults [true] Sample.store) Sample.juice 5
                         eq_refl eq_refl ltac:(discriminate) eq_refl eq_refl
                         ltac:(reflexivity) eq_refl eq_refl))).
Defined.

End StoreInvariants.

(* ------------------------------------------------------------------------- *)
(** * The store's start *)
(* ------------------------------------------------------------------------- *)

Module StartupFacts.

Import Store Startup JsFacts StoreFacts.

Lemma in_store_run {A : Type} (c : Eff Store.World A) (w : World)
    (r : Outcome A) (s' : Store.World) :
  c (store w) = (r, s') ->
  in_store c w
  = (r, {| store := s'; product_json := product_json w;
           central := central w |}).
Proof. intros H. unfold in_store. rewrite H. reflexivity. Qed.

Lemma loadAssets_present (s : Store.World) (a : Assets) :
  faults s = [] -> assets_json (disk s) = Some a ->
  loadAssets s = (Ok a, with_trace (trace s ++ [EvRead ASSETS_FILE true]) s).
Proof.
  intros Hf Ha. destruct s as [st mp ip d fs tk dr tr]. destruct d as [aj tj lk].
  simpl in *. subst. reflexivity.
Qed.

Lemma loadTransactions_run (s : Store.World) :
  faults s = [] ->
  loadTransactions s
  = (Ok (recorded (disk s)),
     {| serverState := serverState s; myProduct := myProduct s;
        myIpAddress := myIpAddress s;
        disk := {| assets_json := assets_json (disk s);
                   transactions_json := Some (recorded (disk s));
                   assets_lock := assets_lock (disk s) |};
        faults := []; ticks := ticks s; draws := draws s;
        trace := trace s
                 ++ match transactions_json (disk s) with
                    | Some _ => [EvRead TRANSACTIONS_FILE true]
                    | None => [EvRead TRANSACTIONS_FILE false;
                               EvWrite TRANSACTIONS_FILE true]
                    end |}).
Proof.
  intros Hf. destruct s as [st mp ip d fs tk dr tr]. destruct d as [aj tj lk].
  simpl in *. subst. destruct tj; unfold loadTransactions, try_catch,
    readJSON, writeJSON, bind, next_fault, emit, ret, throw; simpl;
    rewrite <- ?app_assoc; reflexivity.
Qed.


Lemma loadProduct_present (p : Product) (w : World) :
  faults (store w) = [] -> product_json w = Some p ->
  loadProduct w = (Ok (Some p), w).
Proof.
  intros Hf Hp. unfold loadProduct, try_catch, readJSON_product, bind,
    in_store, next_fault. rewrite Hf. destruct w as [s pj c]. destruct s.
  simpl in *. subst. reflexivity.
Qed.




(** X11. The definition of a product while the lock marker is there fails with
    the lock error: the ledger, the log and the marker are as before and
    [product.json] is not written. *)
Theorem defineProduct_under_held_lock (productName : string) (price : Q)
    (w : World) (a : Assets) :
  assets_lock (disk (store w)) = true ->
  faults (store w) = [] ->
  assets_json (disk (store w)) = Some a ->
  exists w' : World,
    defineProduct productName price w = (Throw (Error MSG_LOCKED), w')
    /\ disk (store w') = disk (store w)
    /\ product_json w' = product_json w.
Proof.
  intros Hl Hf Ha. unfold defineProduct.
  rewrite (bind_ok _ _ _ _ _
             (in_store_run loadAssets w _ _
                (loadAssets_present (store w) a Hf Ha))).
  erewrite bind_throw;
    [|apply in_store_run; apply updateAssets_locked; exact Hl].
  eexists. split; [reflexivity|]. split; reflexivity.
Qed.

(** ** The start against a registry *)

(** The body that [registerToMarket] sends. *)
Definition registration (s : Store.World) (p : Product) (PORT : JsValue)
  : JsValue :=
  JObj [ ("ip", JStr (myIpAddress s)); ("product", JStr (name p));
         ("priceYen", JNum (priceYen p)); ("port", PORT) ].

(** The store as [initializeServer] has it when it starts to listen. *)
Definition configured (s : Store.World) (p : Product) : Store.World :=
  {| serverState := CONFIGURED; myProduct := Some p;
     myIpAddress := myIpAddress s;
     disk := {| assets_json := assets_json (disk s);
                transactions_json := Some (recorded (disk s));
                assets_lock := assets_lock (disk s) |};
     faults := []; ticks := ticks s; draws := draws s;
     trace := (trace s ++ [EvRead ASSETS_FILE true])
              ++ match transactions_json (disk s) with
                 | Some _ => [EvRead TRANSACTIONS_FILE true]
                 | None => [EvRead TRANSACTIONS_FILE false;
                            EvWrite TRANSACTIONS_FILE true]
                 end |}.

(** [initializeServer] with a ledger and a product on disk: it loads them,
    becomes CONFIGURED and runs the callback of [listen]. *)
Lemma initializeServer_run (PORT : JsValue) (server : Central) (w : World)
    (a : Assets) (p : Product) :
  faults (store w) = [] ->
  assets_json (disk (store w)) = Some a ->
  product_json w = Some p ->
  initializeServer PORT server w
  = on_listen PORT server
      {| store := configured (store w) p; product_json := Some p;
         central := central w |}.
Proof.
  intros Hf Ha Hp. unfold initializeServer.
  rewrite (bind_ok _ _ _ _ _
             (in_store_run loadAssets w _ _
                (loadAssets_present (store w) a Hf Ha))).
  erewrite bind_ok;
    [|apply in_store_run; apply loadTransactions_run; exact Hf].
  erewrite bind_ok; [|apply loadProduct_present; [reflexivity|exact Hp]].
  unfold configured. destruct w as [s pj c]. simpl in Hp. subst pj.
  reflexivity.
Qed.

(** The callback of [listen] when the registry answers 2xx. *)
Lemma on_listen_accepted (PORT : JsValue)
    (handler : JsValue -> Eff Registry.World Response) (w : World)
    (p : Product) (response : Response) (c' : Registry.World) :
  myProduct (store w) = Some p ->
  handler (registration (store w) p PORT) (central w) = (Ok response, c') ->
  (200 <=? status response)%Z && (status response <? 300)%Z = true ->
  on_listen PORT (Some handler) w
  = (Ok tt,
     {| store := {| serverState := ACTIVE; myProduct := Some p;
                    myIpAddress := myIpAddress (store w);
                    disk := disk (store w); faults := faults (store w);
                    ticks := ticks (store w); draws := draws (store w);
                    trace := trace (store w) |};
        product_json := product_json w; central := c' |}).
Proof.
  intros Hp Hh H2xx. destruct w as [s pj c]. destruct s. simpl in *. subst.
  unfold on_listen, registerToMarket, try_catch, bind, in_store, the_product,
    axios_post, set_serverState, registration in *.
  cbn [store central product_json myProduct myIpAddress] in *.
  rewrite Hh, H2xx. reflexivity.
Qed.

(** The callback of [listen] when the registry cannot be reached or answers
    another status than 2xx: the exception is swallowed and the state stays
    as it was. *)
Lemma on_listen_rejected (PORT : JsValue) (server : Central) (w : World)
    (p : Product) :
  myProduct (store w) = Some p ->
  match server with
  | None => True
  | Some handler =>
      exists response : Response,
        handler (registration (store w) p PORT) (central w)
        = (Ok response, central w)
        /\ (200 <=? status response)%Z && (status response <? 300)%Z = false
  end ->
  on_listen PORT server w = (Ok tt, w).
Proof.
  intros Hp Hs. destruct w as [s pj c]. destruct s. simpl in *. subst.
  unfold on_listen, registerToMarket, try_catch, bind, in_store, the_product,
    axios_post, set_serverState, registration in *.
  cbn [store central product_json myProduct myIpAddress] in *.
  destruct server as [handler|]; [|reflexivity].
  destruct Hs as (response & Hh & Hst). rewrite Hh, Hst. reflexivity.
Qed.

(** The directory after a legacy registration holds the record of the
    store. *)
Lemma registered_legacy_has_record (rt : Runtime)
    (ip port product priceYen : JsValue) (c : Registry.World) :
  exists record : Registry.JsObject,
    In record (RegistryFacts.registered_legacy rt ip port product priceYen c)
    /\ lookup "address" record = JStr (Registry.address_of rt ip port)
    /\ lookup "product" record = product
    /\ lookup "price" record = priceYen
    /\ lookup "status" record = JStr "ONLINE".
Proof.
  unfold RegistryFacts.registered_legacy.
  destruct (Registry.findIndex _ _) as [i|] eqn:F.
  - destruct (RegistryFacts.findIndex_Some _ _ _ F) as (old & Hn & _).
    eexists. split.
    + apply (nth_error_In _ i). apply RegistryFacts.store_at_same.
      apply nth_error_Some. congruence.
    + repeat split.
  - eexists. split; [apply in_or_app; right; left; reflexivity|].
    repeat split.
Qed.

(** X12. The start of a store against the legacy registry, with a ledger and a
    product on disk and the storage of both processes working: the body that
    the store sends, [{ip, product, priceYen, port}], is accepted, the store
    ends ACTIVE with the product of [product.json], and the directory of the
    registry holds the record of the store at [ip:port], ONLINE, with its
    product and price. *)
Theorem start_against_legacy_registry (rt : Runtime) (PORT : JsValue)
    (w : World) (a : Assets) (p : Product) :
  faults (store w) = [] ->
  assets_json (disk (store w)) = Some a ->
  product_json w = Some p ->
  name p <> EmptyString -> 0 < priceYen p ->
  myIpAddress (store w) <> EmptyString ->
  truthy PORT = true ->
  Registry.faults (central w) = [] ->
  exists w' : World,
    initializeServer PORT (Some (Registry.register_legacy rt)) w = (Ok tt, w')
    /\ serverState (store w') = ACTIVE
    /\ myProduct (store w') = Some p
    /\ assets_json (disk (store w')) = Some a
    /\ exists record : Registry.JsObject,
         In record (Registry.directory (central w'))
         /\ lookup "address" record
            = JStr (Registry.address_of rt (JStr (myIpAddress (store w))) PORT)
         /\ lookup "product" record = JStr (name p)
         /\ lookup "price" record = JNum (priceYen p)
         /\ lookup "status" record = JStr "ONLINE".
Proof.
  intros Hf Ha Hp Hname Hprice Hip Hport Hcf.
  rewrite (initializeServer_run PORT _ w a p Hf Ha Hp).
  destruct (RegistryFacts.register_legacy_accepted rt
              (registration (store w) p PORT)
              (JStr (myIpAddress (store w))) PORT (JStr (name p))
              (priceYen p) (central w)
              eq_refl (nonempty_truthy _ Hip) eq_refl Hport
              eq_refl (nonempty_truthy _ Hname) eq_refl Hprice Hcf)
    as (c' & Hreg & Hdir).
  erewrite on_listen_accepted; [|reflexivity|exact Hreg|reflexivity].
  eexists. split; [reflexivity|].
  cbn [store central serverState myProduct disk configured assets_json].
  split; [reflexivity|]. split; [reflexivity|]. split; [exact Ha|].
  rewrite Hdir. apply registered_legacy_has_record.
Qed.

(** X13. The start of a store against the current registry, or with no registry
    in reach: the body that the store sends has no [products], the
    registration is answered 400 (or not at all), the exception is swallowed,
    and the store stays CONFIGURED for good: the directory is untouched and
    every purchase request is answered 503. *)
Theorem start_against_current_registry (rt : Runtime) (PORT : JsValue)
    (server : Central) (w : World) (a : Assets) (p : Product) :
  faults (store w) = [] ->
  assets_json (disk (store w)) = Some a ->
  product_json w = Some p ->
  server = None \/ server = Some (Registry.register rt) ->
  exists w' : World,
    initializeServer PORT server w = (Ok tt, w')
    /\ serverState (store w') = CONFIGURED
    /\ central w' = central w
    /\ forall (rt' : Runtime) (req : Request),
         buy rt' req (store w')
         = (Ok {| status := 503; body := error_body MSG_NOT_ACTIVE |},
            store w').
Proof.
  intros Hf Ha Hp Hserver.
  rewrite (initializeServer_run PORT _ w a p Hf Ha Hp).
  erewrite on_listen_rejected; [|reflexivity|].
  - eexists. split; [reflexivity|]. split; [reflexivity|].
    split; [reflexivity|]. intros rt' req. apply buy_not_active.
    discriminate.
  - destruct Hserver as [-> | ->]; [exact I|].
    eexists.
    split;
      [apply (RegistryFacts.register_missing_parameters rt _
                (JStr (myIpAddress (store w))) PORT JUndefined);
       [reflexivity|reflexivity|reflexivity|right; right; left; reflexivity]
      |reflexivity].
Qed.

(** ** The theorems at work on a sample store that starts *)

(** The sample store before its start, with its product on disk, and the
    sample registry. *)
Definition starting : World :=
  {| store := Sample.store; product_json := Some Sample.juice;
     central := Sample.registry |}.


Lemma defineProduct_under_held_lock_witness :
  exists w' : World,
    defineProduct "juice" 100
      {| store := Sample.locked_store; product_json := None;
         central := Sample.registry |}
    = (Throw (Error MSG_LOCKED), w')
    /\ product_json w' = None.
Proof.
  destruct (defineProduct_under_held_lock "juice" 100
              {| store := Sample.locked_store; product_json := None;
                 central := Sample.registry |} Sample.ledger
              eq_refl eq_refl eq_refl) as (w' & H & _ & P).
  exists w'. split; [exact H|exact P].
Defined.

Lemma start_against_legacy_registry_witness :
  exists w' : World,
    initializeServer (JNum 8082) (Some (Registry.register_legacy Sample.rt))
      starting = (Ok tt, w')
    /\ serverState (store w') = ACTIVE.
Proof.
  destruct (start_against_legacy_registry Sample.rt (JNum 8082) starting
              Sample.ledger Sample.juice eq_refl eq_refl eq_refl
              ltac:(discriminate) ltac:(reflexivity) ltac:(discriminate)
              eq_refl eq_refl) as (w' & H & S & _).
  exists w'. split; [exact H|exact S].
Defined.

Lemma start_against_current_registry_witness :
  exists w' : World,
    initializeServer (JNum 8082) (Some (Registry.register Sample.rt)) starting
    = (Ok tt, w')
    /\ serverState (store w') = CONFIGURED.
Proof.
  destruct (start_against_current_registry Sample.rt (JNum 8082)
              (Some (Registry.register Sample.rt)) starting Sample.ledger
              Sample.juice eq_refl eq_refl eq_refl (or_intror eq_refl))
    as (w' & H & S & _).
  exists w'. split; [exact H|exact S].
Defined.

(** ** The first start, with an empty data directory *)

(** The callback of [listen] returns and changes nothing of the store but its
    state, which stays or becomes ACTIVE. *)
Lemma on_listen_frame (PORT : JsValue) (server : Central) (w : World) :
  exists (st : ServerState) (c' : Registry.World),
    on_listen PORT server w
    = (Ok tt,
       {| store := {| serverState := st; myProduct := myProduct (store w);
                      myIpAddress := myIpAddress (store w);
                      disk := disk (store w); faults := faults (store w);
                      ticks := ticks (store w); draws := draws (store w);
                      trace := trace (store w) |};
          product_json := product_json w; central := c' |})
    /\ (st = serverState (store w) \/ st = ACTIVE).
Proof.
  destruct w as [s pj c]. destruct s as [st mp ip d fs tk dr tr].
  unfold on_listen, registerToMarket, try_catch, bind, in_store, the_product,
    axios_post, set_serverState, ret, throw.
  cbn [store central product_json myProduct myIpAddress serverState disk
       faults ticks draws trace].
  destruct mp as [p|]; [|do 2 eexists; split; [reflexivity|left; reflexivity]].
  destruct server as [handler|];
    [|do 2 eexists; split; [reflexivity|left; reflexivity]].
  cbn [store central product_json myProduct myIpAddress serverState disk
       faults ticks draws trace].
  match goal with
  | |- context [ handler ?b c ] => destruct (handler b c) as [[response|e] c']
  end; [|do 2 eexists; split; [reflexivity|left; reflexivity]].
  destruct ((200 <=? status response)%Z && (status response <? 300)%Z);
    do 2 eexists; (split; [reflexivity|]);
    [right; reflexivity|left; reflexivity].
Qed.

(** X14. The first start of a store, with neither a ledger nor a product on
    disk, the lock free and the storage working, whatever registry it finds:
    the ledger is created with 100000000 procurement points, the product
    [りんごジュース] is defined at 120 yen, the stock is the 833333 units that the
    points buy, 40 points are left, the capital is the initial 100000000,
    [product.json] holds the product, and the store is CONFIGURED or
    ACTIVE. *)
Theorem first_start (PORT : JsValue) (server : Central) (w : World) :
  assets_json (disk (store w)) = None ->
  product_json w = None ->
  assets_lock (disk (store w)) = false ->
  faults (store w) = [] ->
  exists w' : World,
    initializeServer PORT server w = (Ok tt, w')
    /\ assets_json (disk (store w'))
       = Some {| capitalYen := 100000000;
                 procurementPts := 40;
                 inventory := [ {| Store.product := "りんごジュース";
                                   qty := 833333 |} ];
                 collection := [] |}
    /\ product_json w' = Some {| name := "りんごジュース"; priceYen := 120 |}
    /\ myProduct (store w')
       = Some {| name := "りんごジュース"; priceYen := 120 |}
    /\ assets_lock (disk (store w')) = false
    /\ (serverState (store w') = CONFIGURED
        \/ serverState (store w') = ACTIVE).
Proof.
  intros Ha Hp Hl Hf.
  assert (H : exists (tr : list Event) (tj : option (list Transaction)),
            initializeServer PORT server w
            = on_listen PORT server
                {| store :=
                     {| serverState := CONFIGURED;
                        myProduct := Some {| name := "りんごジュース";
                                             priceYen := 120 |};
                        myIpAddress := myIpAddress (store w);
                        disk :=
                          {| assets_json :=
                               Some {| capitalYen := 100000000;
                                       procurementPts := 40;
                                       inventory :=
                                         [ {| Store.product := "りんごジュース";
                                              qty := 833333 |} ];
                                       collection := [] |};
                             transactions_json := tj;
                             assets_lock := false |};
                        faults := []; ticks := ticks (store w);
                        draws := draws (store w); trace := tr |};
                   product_json := Some {| name := "りんごジュース";
                                           priceYen := 120 |};
                   central := central w |}).
  { destruct w as [s pj c]. destruct s as [st mp ip d fs tk dr tr].
    destruct d as [aj tj lk]. simpl in Ha, Hp, Hl, Hf. subst.
    unfold initializeServer, defineProduct, saveProduct, loadProduct,
      readJSON_product, writeJSON_product, set_product_json, set_myProduct,
      set_serverState, in_store, updateAssets, loadAssets, loadTransactions,
      readJSON, writeJSON, openSync_wx, unlinkSync, next_fault, emit,
      try_catch, try_finally, bind, ret, throw, lift.
    destruct tj as [l|]; do 2 eexists; cbv -[on_listen]; reflexivity. }
  destruct H as (tr & tj & H). rewrite H.
  destruct (on_listen_frame PORT server
              {| store :=
                   {| serverState := CONFIGURED;
                      myProduct := Some {| name := "りんごジュース";
                                           priceYen := 120 |};
                      myIpAddress := myIpAddress (store w);
                      disk :=
                        {| assets_json :=
                             Some {| capitalYen := 100000000;
                                     procurementPts := 40;
                                     inventory :=
                                       [ {| Store.product := "りんごジュース";
                                            qty := 833333 |} ];
                                     collection := [] |};
                           transactions_json := tj;
                           assets_lock := false |};
                      faults := []; ticks := ticks (store w);
                      draws := draws (store w); trace := tr |};
                 product_json := Some {| name := "りんごジュース";
                                         priceYen := 120 |};
                 central := central w |}) as (st & c' & Hrun & Hst).
  rewrite Hrun. eexists. split; [reflexivity|].
  cbn [store disk assets_json product_json myProduct assets_lock serverState].
  repeat (split; [reflexivity|]).
  destruct Hst as [-> | ->]; [left|right]; reflexivity.
Qed.

Lemma first_start_witness :
  exists w' : World,
    initializeServer (JNum 8082) None
      {| store := with_disk {| assets_json := None;
                               transactions_json := None;
                               assets_lock := false |} Sample.store;
         product_json := None; central := Sample.registry |}
    = (Ok tt, w')
    /\ product_json w' = Some {| name := "りんごジュース"; priceYen := 120 |}.
Proof.
  destruct (first_start (JNum 8082) None
              {| store := with_disk {| assets_json := None;
                                       transactions_json := None;
                                       assets_lock := false |} Sample.store;
                 product_json := None; central := Sample.registry |}
              eq_refl eq_refl eq_refl eq_refl) as (w' & H & _ & P & _).
  exists w'. split; [exact H|exact P].
Defined.

End StartupFacts.

(* ------------------------------------------------------------------------- *)
(** * The registry's listing, repeated registrations and faults *)
(* ------------------------------------------------------------------------- *)

Module RegistryInvariants.

Import Registry JsFacts RegistryFacts.

Ltac open_registry w :=
  destruct w as [mj0 fs0 tk0 pb0 tr0]; simpl in *; subst.

(** ** The listing *)



Lemma list_markets_run (w : World) :
  faults w = [] ->
  list_markets w
  = (Ok (respond 200 (JArr (filter truthy (map listed (directory w))))),
     with_trace (trace w ++ [EvRead (present w)]) w).
Proof.
  intros Hf. unfold list_markets. unfold try_catch at 1.
  rewrite (bind_ok _ _ _ _ _ (loadMarkets_run w Hf)). reflexivity.
Qed.

(** The entry that the listing shows for a record of the current version. *)
Definition shown (entries : list JsValue) (address : string) : JsValue :=
  JObj [ ("products", JArr entries); ("address", JStr address);
         ("status", JStr "ONLINE") ].

Lemma listed_updated (entries : list JsValue) (address : string)
    (u : JsValue) :
  listed (updated_record entries address u) = shown entries address.
Proof. reflexivity. Qed.

Lemma listed_inserted (entries : list JsValue) (address : string)
    (c u : JsValue) :
  listed (inserted_record entries address c u) = shown entries address.
Proof. reflexivity. Qed.

(** The directory after an accepted registration holds a record that is
    listed as the store, ONLINE, with its catalog. *)
Lemma registered_has_record (rt : Runtime) (ip port : JsValue)
    (items : list JsValue) (w : World) :
  exists record : JsObject,
    In record (registered rt ip port items w)
    /\ listed record = shown (map entry_of items) (address_of rt ip port).
Proof.
  unfold registered.
  destruct (findIndex _ _) as [i|] eqn:F.
  - destruct (findIndex_Some _ _ _ F) as (old & Hn & _).
    eexists. split; [|apply listed_updated].
    apply (nth_error_In _ i). apply store_at_same.
    apply nth_error_Some. congruence.
  - eexists. split; [apply in_or_app; right; left; reflexivity|].
    apply listed_inserted.
Qed.

(** X16. What is registered is what buyers see: after an accepted registration
    the listing is answered 200 and holds the entry of the store, with the
    catalog of the request as a list of [{product, price}], the address
    [ip:port] and the status ONLINE. *)
Theorem register_then_list (rt : Runtime) (req_body ip port : JsValue)
    (items : list JsValue) (w : World) :
  prop req_body "ip" = Some ip -> truthy ip = true ->
  prop req_body "port" = Some port -> truthy port = true ->
  prop req_body "products" = Some (JArr items) -> items <> [] ->
  forallb item_ok items = true ->
  faults w = [] ->
  exists (entries : list JsValue) (w' : World),
    list_markets (snd (register rt req_body w))
    = (Ok (respond 200 (JArr entries)), w')
    /\ In (JObj [ ("products", JArr (map entry_of items));
                  ("address", JStr (address_of rt ip port));
                  ("status", JStr "ONLINE") ]) entries.
Proof.
  intros Hip Tip Hport Tport Hprod Hne Hok Hf.
  rewrite (register_accepted rt req_body ip port items w
             Hip Tip Hport Tport Hprod Hne Hok Hf).
  cbn [snd]. rewrite list_markets_run by reflexivity.
  do 2 eexists. split; [reflexivity|]. rewrite directory_saved.
  destruct (registered_has_record rt ip port items w) as (record & Hin & Hl).
  apply filter_In. split; [|reflexivity].
  apply in_map_iff. exists record. split; [exact Hl|exact Hin].
Qed.

(** ** A registration repeated *)

Lemma findIndex_store_at (test : JsObject -> bool) (i : nat) (r : JsObject)
    (l : list JsObject) :
  findIndex test l = Some i -> test r = true ->
  findIndex test (store_at i r l) = Some i.
Proof.
  revert i. induction l as [|m rest IH]; simpl; [discriminate|]. intros i.
  destruct (test m) eqn:E.
  - intros [= <-] Hr. simpl. rewrite Hr. reflexivity.
  - destruct (findIndex test rest) as [j|]; [|discriminate].
    intros [= <-] Hr. simpl. rewrite E, (IH j eq_refl Hr). reflexivity.
Qed.

Lemma findIndex_app_new (test : JsObject -> bool) (r : JsObject)
    (l : list JsObject) :
  findIndex test l = None -> test r = true ->
  findIndex test (l ++ [r]) = Some (length l).
Proof.
  induction l as [|m rest IH]; simpl.
  - intros _ Hr. rewrite Hr. reflexivity.
  - destruct (test m); [discriminate|].
    destruct (findIndex test rest); [discriminate|].
    intros _ Hr. rewrite (IH eq_refl Hr). reflexivity.
Qed.

Lemma store_at_end (r r' : JsObject) (l : list JsObject) :
  store_at (length l) r' (l ++ [r]) = l ++ [r'].
Proof. induction l as [|m rest IH]; simpl; [reflexivity|]. rewrite IH. reflexivity. Qed.

Lemma store_at_twice (i : nat) (r r' : JsObject) (l : list JsObject) :
  store_at i r' (store_at i r l) = store_at i r' l.
Proof.
  revert i. induction l as [|m rest IH]; intros [|i]; simpl; try reflexivity.
  rewrite IH. reflexivity.
Qed.

Lemma map_listed_store_at (i : nat) (r r' : JsObject) (l : list JsObject) :
  listed r = listed r' ->
  map listed (store_at i r l) = map listed (store_at i r' l).
Proof.
  intros H. revert i. induction l as [|m rest IH]; intros [|i]; simpl;
    try reflexivity.
  - rewrite H. reflexivity.
  - rewrite IH. reflexivity.
Qed.

(** The directory after the same registration again: the same length and the
    same listing. *)
Lemma registered_again (rt : Runtime) (ip port : JsValue)
    (items : list JsValue) (w : World) (f : list bool) (t p : nat)
    (tr : list Event) :
  length (registered rt ip port items
            {| markets_json := Some (registered rt ip port items w);
               faults := f; ticks := t; probes := p; trace := tr |})
  = length (registered rt ip port items w)
  /\ map listed (registered rt ip port items
                   {| markets_json := Some (registered rt ip port items w);
                      faults := f; ticks := t; probes := p; trace := tr |})
     = map listed (registered rt ip port items w).
Proof.
  set (address := address_of rt ip port).
  assert (Tu : forall e u, at_address address (updated_record e address u) = true)
    by (intros; rewrite at_address_updated; apply String.eqb_refl).
  assert (Ti : forall e c u,
            at_address address (inserted_record e address c u) = true)
    by (intros; rewrite at_address_inserted; apply String.eqb_refl).
  unfold registered. fold address. rewrite !directory_saved. cbn [ticks].
  destruct (findIndex (at_address address) (directory w)) as [i|] eqn:F.
  - rewrite (findIndex_store_at _ i _ _ F (Tu _ _)), store_at_twice.
    split; [rewrite !store_at_length; reflexivity|].
    apply map_listed_store_at. reflexivity.
  - rewrite (findIndex_app_new _ _ _ F (Ti _ _ _)), store_at_end.
    split; [rewrite !length_app; reflexivity|].
    rewrite !map_app. reflexivity.
Qed.

(** X17. A registration sent twice: the second is accepted like the first, the
    directory keeps its length, and every record is listed as after the first
    registration: a retry of a registration changes nothing that a buyer
    sees. *)
Theorem registration_retry (rt : Runtime) (req_body ip port : JsValue)
    (items : list JsValue) (w : World) :
  prop req_body "ip" = Some ip -> truthy ip = true ->
  prop req_body "port" = Some port -> truthy port = true ->
  prop req_body "products" = Some (JArr items) -> items <> [] ->
  forallb item_ok items = true ->
  faults w = [] ->
  fst (register rt req_body (snd (register rt req_body w)))
  = Ok (respond 200 (JObj [ ("message", JStr MSG_REGISTERED) ]))
  /\ length (directory (snd (register rt req_body
                                (snd (register rt req_body w)))))
     = length (directory (snd (register rt req_body w)))
  /\ map listed (directory (snd (register rt req_body
                                   (snd (register rt req_body w)))))
     = map listed (directory (snd (register rt req_body w))).
Proof.
  intros Hip Tip Hport Tport Hprod Hne Hok Hf.
  rewrite (register_accepted rt req_body ip port items w
             Hip Tip Hport Tport Hprod Hne Hok Hf).
  cbn [snd].
  rewrite (register_accepted rt req_body ip port items _
             Hip Tip Hport Tport Hprod Hne Hok) by reflexivity.
  cbn [fst snd]. rewrite !directory_saved.
  split; [reflexivity|]. apply registered_again.
Qed.

(** ** Faults and malformed catalogs *)


Lemma loadMarkets_read_fails (w : World) (fs : list bool) :
  faults w = true :: fs ->
  loadMarkets w
  = (Ok [], with_trace (trace w ++ [EvRead false]) (with_faults fs w)).
Proof. intros Hf. open_registry w. reflexivity. Qed.


(** The validation loop throws at an item that cannot be read, when the items
    before it pass. *)
Lemma check_items_unreadable (before after : list JsValue) (item : JsValue) :
  forallb item_ok before = true ->
  readable item = false ->
  check_items (before ++ item :: after) = Throw TypeError.
Proof.
  intros Hb Hr. induction before as [|i rest IH]; simpl.
  - destruct item; try discriminate; reflexivity.
  - simpl in Hb. apply andb_true_iff in Hb. destruct Hb as [Hi Hrest].
    unfold item_ok in Hi.
    destruct (prop i "product") as [product|]; [|discriminate].
    destruct (prop i "priceYen") as [[| |b|n|s0|l|o]|]; try discriminate.
    apply andb_true_iff in Hi. destruct Hi as [Tp Hn].
    rewrite Tp. apply negb_true_iff in Hn. rewrite Hn. simpl.
    exact (IH Hrest).
Qed.

(** X19. A catalog with a null item is answered 500, not 400: when the items
    before the null one pass the validation, reading the product of the null
    item throws, the handler answers the internal error, and nothing is read
    or written. *)
Theorem register_null_item (rt : Runtime) (req_body ip port : JsValue)
    (before after : list JsValue) (item : JsValue) (w : World) :
  prop req_body "ip" = Some ip -> truthy ip = true ->
  prop req_body "port" = Some port -> truthy port = true ->
  prop req_body "products" = Some (JArr (before ++ item :: after)) ->
  forallb item_ok before = true ->
  item = JNull \/ item = JUndefined ->
  register rt req_body w
  = (Ok (respond 500 (error_body MSG_SERVER_ERROR)), w).
Proof.
  intros Hip Tip Hport Tport Hprod Hb Hnull.
  unfold register, try_catch. rewrite Hip, Hport, Hprod, Tip, Tport.
  replace (length (before ++ item :: after) =? 0)%nat with false
    by (rewrite length_app; simpl; symmetry; apply Nat.eqb_neq; lia).
  cbn [negb orb]. unfold bind, lift.
  rewrite (check_items_unreadable before after item Hb)
    by (destruct Hnull as [-> | ->]; reflexivity).
  reflexivity.
Qed.

(** X20. A directory file that cannot be read is taken for an empty directory
    and overwritten: an accepted registration then saves a directory that
    holds the record of the registering store and nothing else, and a sweep
    saves an empty directory, whatever records the file held. *)
Theorem unreadable_directory_is_replaced (rt : Runtime)
    (net : nat -> string -> ProbeOutcome) (req_body ip port : JsValue)
    (items : list JsValue) (w : World) :
  prop req_body "ip" = Some ip -> truthy ip = true ->
  prop req_body "port" = Some port -> truthy port = true ->
  prop req_body "products" = Some (JArr items) -> items <> [] ->
  forallb item_ok items = true ->
  faults w = [true] ->
  (fst (register rt req_body w)
   = Ok (respond 200 (JObj [ ("message", JStr MSG_REGISTERED) ]))
   /\ directory (snd (register rt req_body w))
      = [ [ ("products", JArr (map entry_of items));
            ("address", JStr (address_of rt ip port));
            ("status", JStr "ONLINE");
            ("createdAt", stamp rt (ticks w));
            ("updatedAt", stamp rt (S (ticks w))) ] ])
  /\ (fst (performHealthChecks rt net w) = Ok tt
      /\ markets_json (snd (performHealthChecks rt net w)) = Some []).
Proof.
  intros Hip Tip Hport Tport Hprod Hne Hok Hf. split.
  - assert (H : register rt req_body w
                = (Ok (respond 200 (JObj [ ("message", JStr MSG_REGISTERED) ])),
                   {| markets_json :=
                        Some [ inserted_record (map entry_of items)
                                 (address_of rt ip port) (stamp rt (ticks w))
                                 (stamp rt (S (ticks w))) ];
                      faults := []; ticks := S (S (ticks w));
                      probes := probes w;
                      trace := trace w ++ [EvRead false; EvWrite true] |})).
    { unfold register. unfold try_catch at 1.
      rewrite Hip, Hport, Hprod, Tip, Tport.
      destruct items as [|i0 its] eqn:Eits; [congruence|].
      rewrite <- Eits in *.
      replace (length items =? 0)%nat with false
        by (rewrite Eits; reflexivity).
      cbn [negb orb].
      rewrite (check_items_accepts items Hok), bind_lift. cbn [negb].
      rewrite (bind_ok _ _ _ _ _ (loadMarkets_read_fails w _ Hf)).
      cbn [findIndex].
      rewrite (catalog_accepted items (item_ok_readable _ Hok)), bind_lift.
      unfold bind at 1. unfold Date_toISOString at 1.
      unfold bind at 1. unfold Date_toISOString at 1.
      erewrite bind_ok; [|apply saveMarkets_ok; reflexivity].
      unfold ret. simpl. rewrite <- app_assoc. reflexivity. }
    rewrite H. split; reflexivity.
  - assert (H : exists tr,
                performHealthChecks rt net w
                = (Ok tt, {| markets_json := Some []; faults := [];
                             ticks := ticks w; probes := (probes w + 0)%nat;
                             trace := tr |})).
    { unfold performHealthChecks. unfold try_catch at 1.
      rewrite (bind_ok _ _ _ _ _ (loadMarkets_read_fails w _ Hf)).
      rewrite (bind_ok _ _ _ _ _ (check_all_run rt net _ _)).
      erewrite saveMarkets_ok by reflexivity.
      eexists. reflexivity. }
    destruct H as [tr H]. rewrite H. split; reflexivity.
Qed.

(** ** Sweep after sweep *)

Lemma health_url_assign_status (rt : Runtime) (v : JsValue) (m : JsObject) :
  health_url rt (assign "status" v m) = health_url rt m.
Proof.
  unfold health_url. rewrite lookup_assign_other by discriminate.
  reflexivity.
Qed.

(** X21. The status follows the latest sweep: after two sweeps on a working
    disk, a record is ONLINE exactly when its probe of the second sweep came
    back with 200, whatever the first sweep found (a store that was
    unreachable is ONLINE again one sweep after it is back, and the other way
    round); its other fields are still those from before the sweeps. *)
Theorem status_follows_latest_sweep (rt : Runtime)
    (net : nat -> string -> ProbeOutcome) (w : World) (i : nat)
    (m : JsObject) :
  faults w = [] ->
  nth_error (directory w) i = Some m ->
  exists m2 : JsObject,
    nth_error
      (directory (snd (performHealthChecks rt net
                         (snd (performHealthChecks rt net w))))) i
    = Some m2
    /\ (lookup "status" m2 = JStr "ONLINE"
        <-> net (probes w + length (directory w) + i)%nat (health_url rt m)
            = Responded 200)
    /\ (lookup "status" m2 = JStr "OFFLINE"
        <-> net (probes w + length (directory w) + i)%nat (health_url rt m)
            <> Responded 200)
    /\ forall k : string, k <> "status" -> lookup k m2 = lookup k m.
Proof.
  intros Hf Hn.
  rewrite (performHealthChecks_run rt net w Hf). cbn [snd].
  rewrite performHealthChecks_run by reflexivity.
  cbn [snd]. rewrite !directory_saved. cbn [probes].
  pose proof (swept_nth rt net (probes w) i _ m Hn) as H1.
  rewrite (swept_nth rt net _ i _ _ H1).
  rewrite health_url_assign_status.
  eexists. split; [reflexivity|].
  rewrite lookup_assign_same.
  pose proof (alive_iff (net (probes w + length (directory w) + i)%nat
                           (health_url rt m))) as Ha.
  destruct (alive (net (probes w + length (directory w) + i)%nat
                     (health_url rt m))).
  - split; [split; [intros _; apply Ha; reflexivity|reflexivity]|].
    split.
    + split; [discriminate|]. intros H. exfalso. apply H, Ha. reflexivity.
    + intros k Hk. rewrite !lookup_assign_other by exact Hk. reflexivity.
  - split.
    + split; [discriminate|]. intros H. apply Ha in H. discriminate.
    + split.
      * split; [|reflexivity]. intros _ H. apply Ha in H. discriminate.
      * intros k Hk. rewrite !lookup_assign_other by exact Hk. reflexivity.
Qed.

(** ** The theorems at work on the sample registry *)

Lemma register_then_list_witness :
  exists (entries : list JsValue) (w' : World),
    list_markets (snd (register Sample.rt Sample.multi_body Sample.registry))
    = (Ok (respond 200 (JArr entries)), w')
    /\ In (JObj [ ("products",
                   JArr [ JObj [ ("product", JStr "juice");
                                 ("price", JNum 100) ] ]);
                  ("address", JStr "10.0.0.1:9000");
                  ("status", JStr "ONLINE") ]) entries.
Proof.
  exact (register_then_list Sample.rt Sample.multi_body (JStr "10.0.0.1")
           (JNum 9000)
           [ JObj [ ("product", JStr "juice"); ("priceYen", JNum 100) ] ]
           Sample.registry eq_refl eq_refl eq_refl eq_refl eq_refl
           ltac:(discriminate) eq_refl eq_refl).
Defined.

Lemma registration_retry_witness :
  length (directory (snd (register Sample.rt Sample.multi_body
                            (snd (register Sample.rt Sample.multi_body
                                    Sample.known_registry)))))
  = length (directory (snd (register Sample.rt Sample.multi_body
                              Sample.known_registry))).
Proof.
  exact (proj1 (proj2 (registration_retry Sample.rt Sample.multi_body
                         (JStr "10.0.0.1") (JNum 9000)
                         [ JObj [ ("product", JStr "juice");
                                  ("priceYen", JNum 100) ] ]
                         Sample.known_registry eq_refl eq_refl eq_refl
                         eq_refl eq_refl ltac:(discriminate) eq_refl
                         eq_refl))).
Defined.


Lemma register_null_item_witness :
  register Sample.rt
    (JObj [ ("ip", JStr "10.0.0.1"); ("port", JNum 9000);
            ("products", JArr [ JNull ]) ]) Sample.registry
  = (Ok (respond 500 (error_body MSG_SERVER_ERROR)), Sample.registry).
Proof.
  exact (register_null_item Sample.rt
           (JObj [ ("ip", JStr "10.0.0.1"); ("port", JNum 9000);
                   ("products", JArr [ JNull ]) ])
           (JStr "10.0.0.1") (JNum 9000)
           [] [] JNull Sample.registry eq_refl eq_refl eq_refl eq_refl
           eq_refl eq_refl (or_introl eq_refl)).
Defined.

Lemma unreadable_directory_is_replaced_witness :
  length (directory (snd (register Sample.rt Sample.multi_body
                            (with_faults [true] Sample.known_registry))))
  = 1%nat
  /\ markets_json (snd (performHealthChecks Sample.rt Sample.net
                          (with_faults [true] Sample.known_registry)))
     = Some [].
Proof.
  destruct (unreadable_directory_is_replaced Sample.rt Sample.net
              Sample.multi_body (JStr "10.0.0.1") (JNum 9000)
              [ JObj [ ("product", JStr "juice"); ("priceYen", JNum 100) ] ]
              (with_faults [true] Sample.known_registry)
              eq_refl eq_refl eq_refl eq_refl eq_refl ltac:(discriminate)
              eq_refl eq_refl) as [[_ D] [_ M]].
  split; [rewrite D; reflexivity|exact M].
Defined.

Lemma status_follows_latest_sweep_witness :
  exists m2 : JsObject,
    nth_error
      (directory (snd (performHealthChecks Sample.rt Sample.net
                         (snd (performHealthChecks Sample.rt Sample.net
                                 Sample.known_registry))))) 0
    = Some m2
    /\ lookup "address" m2 = JStr "10.0.0.1:9000".
Proof.
  destruct (status_follows_latest_sweep Sample.rt Sample.net
              Sample.known_registry 0 _ eq_refl eq_refl)
    as (m2 & H & _ & _ & K).
  exists m2. split; [exact H|]. rewrite K by discriminate. reflexivity.
Defined.

End RegistryInvariants.
